(** * EmbedKit, [scripts/readme.py]: the README generator

    A shallow embedding of the script and the properties of its
    specification.  The script backs up [README.md], lists the files tracked
    by git, reads them on a thread pool, assembles one prompt, sends it to a
    text-generation endpoint and writes the answer to [README.md].

    Conventions of the embedding.
    - A Python [str] is represented by its UTF-8 encoding, a [string] of
      bytes.  Comparing two such strings byte by byte is comparing the
      [str] values code point by code point, which is how Python orders
      them.
    - The working directory is a finite map from paths to nodes.
    - A computation of the script is a function from the file system to an
      outcome (a value or a raised exception), the new file system and the
      events it performed, in order: lines printed, processes spawned, files
      opened and requests sent to the endpoint.
    - What the script cannot decide is a field of the environment [Env]:
      what [git ls-files] does, the credential variable, what the endpoint
      answers, the line separator of the platform and the text of an
      exception.
    - Opening a file fails when the path is a directory or the file lacks
      the permission asked for, and reading fails when the bytes are not
      UTF-8.  A new file can always be created, a write to an open file and
      a [print] always succeed, and two paths never name the same file. *)

From Stdlib Require Import Ascii.
From stdpp Require Import base gmap strings list sorting pretty.

(** ** Bytes and text *)

Definition LF : ascii := "010"%char.
Definition CR : ascii := "013"%char.
Definition nl : string := String LF "".

(** The strict UTF-8 decoder, as an automaton over the bytes: [need] more
    continuation bytes are expected and the next one lies in [lo..hi].  It
    refuses overlong forms, the surrogates and what lies above U+10FFFF. *)
Fixpoint utf8_from (need : nat) (lo hi : N) (s : string) : bool :=
  match s with
  | EmptyString => match need with O => true | S _ => false end
  | String a rest =>
      let b := Ascii.N_of_ascii a in
      match need with
      | S k => if ((lo <=? b) && (b <=? hi))%N then utf8_from k 128 191 rest else false
      | O =>
          if (b <? 128)%N then utf8_from 0 128 191 rest
          else if ((194 <=? b) && (b <=? 223))%N then utf8_from 1 128 191 rest
          else if (b =? 224)%N then utf8_from 2 160 191 rest
          else if ((225 <=? b) && (b <=? 236))%N then utf8_from 2 128 191 rest
          else if (b =? 237)%N then utf8_from 2 128 159 rest
          else if ((238 <=? b) && (b <=? 239))%N then utf8_from 2 128 191 rest
          else if (b =? 240)%N then utf8_from 3 144 191 rest
          else if ((241 <=? b) && (b <=? 243))%N then utf8_from 3 128 191 rest
          else if (b =? 244)%N then utf8_from 3 128 143 rest
          else false
      end
  end.

Definition utf8_valid (s : string) : bool := utf8_from 0 128 191 s.

(** Reading in text mode with the default [newline=None]: a carriage return,
    alone or followed by a line feed, is handed to the program as one line
    feed.  [after_cr] says that the previous byte was a carriage return. *)
Fixpoint universal_newlines_from (after_cr : bool) (s : string) : string :=
  match s with
  | EmptyString => EmptyString
  | String a rest =>
      if decide (a = CR) then String LF (universal_newlines_from true rest)
      else if decide (a = LF) then
        if after_cr then universal_newlines_from false rest
        else String LF (universal_newlines_from false rest)
      else String a (universal_newlines_from false rest)
  end.

Definition universal_newlines : string → string := universal_newlines_from false.

(** Writing in text mode with the default [newline=None]: every line feed
    becomes the line separator of the platform. *)
Fixpoint translate_newlines (linesep : string) (s : string) : string :=
  match s with
  | EmptyString => EmptyString
  | String a rest =>
      if decide (a = LF) then linesep +:+ translate_newlines linesep rest
      else String a (translate_newlines linesep rest)
  end.

(** [str.splitlines()].  [line_boundary s] is the number of bytes of the line
    boundary that [s] starts with, 0 when it starts with none: the boundaries
    are LF, CR, CR LF, VT, FF, FS, GS, RS, and U+0085, U+2028 and U+2029 in
    their UTF-8 form. *)
Definition line_boundary (s : string) : nat :=
  match s with
  | EmptyString => 0
  | String a rest =>
      let b := Ascii.N_of_ascii a in
      if (b =? 13)%N then
        match rest with
        | String a1 _ => if decide (a1 = LF) then 2 else 1
        | EmptyString => 1
        end
      else if ((b =? 10) || (b =? 11) || (b =? 12) || (b =? 28) || (b =? 29) || (b =? 30))%N
      then 1
      else if (b =? 194)%N then
        match rest with
        | String a1 _ => if (Ascii.N_of_ascii a1 =? 133)%N then 2 else 0
        | EmptyString => 0
        end
      else if (b =? 226)%N then
        match rest with
        | String a1 (String a2 _) =>
            if ((Ascii.N_of_ascii a1 =? 128)
                && ((Ascii.N_of_ascii a2 =? 168) || (Ascii.N_of_ascii a2 =? 169)))%N
            then 3 else 0
        | _ => 0
        end
      else 0
  end.

(** [skip] bytes of a boundary are still to be passed over, and [cur] is the
    line read so far. *)
Fixpoint splitlines_from (skip : nat) (cur : string) (s : string) : list string :=
  match s with
  | EmptyString => match cur with EmptyString => [] | _ => [cur] end
  | String a rest =>
      match skip with
      | S k => splitlines_from k cur rest
      | O =>
          match line_boundary s with
          | O => splitlines_from 0 (cur +:+ String a "") rest
          | S k => cur :: splitlines_from k "" rest
          end
      end
  end.

Definition splitlines : string → list string := splitlines_from 0 "".

(** Truth value of an [Optional[str]]: [None] and the empty string are
    false. *)
Definition truthy (o : option string) : bool :=
  match o with
  | Some (String _ _) => true
  | _ => false
  end.

(** ** The world of the script *)

Inductive exn : Type :=
  | UnicodeDecodeError
  | FileNotFoundError (filename : string)
  | PermissionError (filename : string)
  | IsADirectoryError (filename : string)
  | CalledProcessError (returncode : Z)
  | ClientError (detail : string).

Inductive outcome (A : Type) : Type :=
  | Ret (a : A)
  | Raise (e : exn).
Arguments Ret {A} a.
Arguments Raise {A} e.

(** A regular file holds bytes and may be read or written, or not. *)
Inductive node : Type :=
  | File (data : string) (readable writable : bool)
  | Dir.

Inductive open_mode : Type := ModeR | ModeW.

Inductive event : Type :=
  | Print (line : string)
  | Spawn (argv : list string)
  | Open (path : string) (mode : open_mode)
  | Generate (api_key model contents : string).

(** What a child process does: it cannot be started, or it exits with a
    status and what it wrote to its standard output. *)
Inductive process : Type :=
  | NotStarted (e : exn)
  | Exited (returncode : Z) (stdout : string).

(** What the endpoint does with a request: the call raises, or a response
    comes back; reading the [text] of a response gives a string or [None], or
    raises. *)
Inductive response : Type :=
  | CallRaised (e : exn)
  | Response (text : outcome (option string)).

Record Env : Type := {
  git_ls_files : process;
  GEMINI_API_KEY : option string;
  generate_content : string → string → string → response;
  linesep : string;
  str_exn : exn → string
}.

(** ** Computations *)

Definition M (A : Type) : Type :=
  gmap string node → outcome A * gmap string node * list event.

Definition run_ret {A} (a : A) : M A := λ fs, (Ret a, fs, []).

Definition run_bind {A B} (k : A → M B) (m : M A) : M B := λ fs,
  match m fs with
  | (Ret a, fs1, evs1) =>
      match k a fs1 with
      | (r, fs2, evs2) => (r, fs2, evs1 ++ evs2)
      end
  | (Raise e, fs1, evs1) => (Raise e, fs1, evs1)
  end.

#[global] Instance M_ret : MRet M := @run_ret.
#[global] Instance M_bind : MBind M := @run_bind.

Definition raise {A} (e : exn) : M A := λ fs, (Raise e, fs, []).

(** [try: body except Exception as e: handler e]; every exception of the
    model is a subclass of [Exception]. *)
Definition try_except {A} (body : M A) (handler : exn → M A) : M A := λ fs,
  match body fs with
  | (Ret a, fs1, evs1) => (Ret a, fs1, evs1)
  | (Raise e, fs1, evs1) =>
      match handler e fs1 with
      | (r, fs2, evs2) => (r, fs2, evs1 ++ evs2)
      end
  end.

Definition emit (e : event) : M unit := λ fs, (Ret tt, fs, [e]).

Definition print (line : string) : M unit := emit (Print line).

(** [Path(path).exists()] *)
Definition path_exists (path : string) : M bool := λ fs,
  (Ret (bool_decide (is_Some (fs !! path))), fs, []).

(** [open(path, "r", encoding="utf-8")]; the handle is the path. *)
Definition open_r (path : string) : M string := λ fs,
  match fs !! path with
  | None => (Raise (FileNotFoundError path), fs, [Open path ModeR])
  | Some Dir => (Raise (IsADirectoryError path), fs, [Open path ModeR])
  | Some (File _ readable _) =>
      if readable then (Ret path, fs, [Open path ModeR])
      else (Raise (PermissionError path), fs, [Open path ModeR])
  end.

(** [f.read()] on a handle opened for reading as text. *)
Definition f_read (f : string) : M string := λ fs,
  match fs !! f with
  | Some (File data _ _) =>
      if utf8_valid data then (Ret (universal_newlines data), fs, [])
      else (Raise UnicodeDecodeError, fs, [])
  | Some Dir => (Raise (IsADirectoryError f), fs, [])
  | None => (Raise (FileNotFoundError f), fs, [])
  end.

(** [open(path, "w", encoding="utf-8")]: the file is created or emptied. *)
Definition open_w (path : string) : M string := λ fs,
  match fs !! path with
  | None => (Ret path, <[path := File "" true true]> fs, [Open path ModeW])
  | Some Dir => (Raise (IsADirectoryError path), fs, [Open path ModeW])
  | Some (File _ readable writable) =>
      if writable
      then (Ret path, <[path := File "" readable writable]> fs, [Open path ModeW])
      else (Raise (PermissionError path), fs, [Open path ModeW])
  end.

(** [f.write(text)] on a handle opened for writing as text. *)
Definition f_write (linesep : string) (f : string) (text : string) : M unit := λ fs,
  match fs !! f with
  | Some (File data readable writable) =>
      (Ret tt,
       <[f := File (data +:+ translate_newlines linesep text) readable writable]> fs,
       [])
  | Some Dir => (Raise (IsADirectoryError f), fs, [])
  | None => (Raise (FileNotFoundError f), fs, [])
  end.

(** [bytes.decode("utf-8")] *)
Definition decode_utf8 (b : string) : M string :=
  if utf8_valid b then mret b else raise UnicodeDecodeError.

(** ** The thread pool

    [ThreadPoolExecutor.map(fn, args)] makes one future per argument, in the
    order of the arguments.  The calls finish in an order the program does
    not choose: a schedule [sched] lists indices of calls in the order in
    which they finish.  Leaving the [with] block waits for every call, so the
    calls that the schedule does not name finish after it, and naming a call
    twice, or one that does not exist, changes nothing.  The results are then
    taken from the futures in the order of the arguments, and the first
    exception found there is raised; by then every future is done
    ([executor_waits]), so that the case of a future still running in [gather]
    is never met. *)

Abbreviation future B := (option (outcome B)) (only parsing).

Definition pool (B : Type) : Type :=
  (list (future B) * gmap string node * list event)%type.

Definition complete {A B} (fn : A → M B) (args : list A)
    (st : pool B) (i : nat) : pool B :=
  match st with
  | (futs, fs, evs) =>
      match futs !! i, args !! i with
      | Some None, Some x =>
          match fn x fs with
          | (r, fs1, evs1) => (<[i := Some r]> futs, fs1, evs ++ evs1)
          end
      | _, _ => st
      end
  end.

Fixpoint gather {B} (futs : list (future B)) : outcome (list B) :=
  match futs with
  | [] => Ret []
  | Some (Ret b) :: rest =>
      match gather rest with
      | Ret bs => Ret (b :: bs)
      | Raise e => Raise e
      end
  | Some (Raise e) :: _ => Raise e
  | None :: rest => gather rest
  end.

Definition executor_map {A B} (sched : list nat) (fn : A → M B) (args : list A)
    : M (list B) := λ fs,
  match foldl (complete fn args) (replicate (length args) None, fs, [])
              (sched ++ seq 0 (length args)) with
  | (futs, fs1, evs) => (gather futs, fs1, evs)
  end.

(** [results.sort(key=lambda x: x[0])]: a stable sort by the first component,
    here by insertion.  [sort_insert] puts [x] before the first element whose
    key is not smaller, so that [x], which came first, stays first among
    equal keys. *)
Fixpoint sort_insert (x : string * string) (l : list (string * string))
    : list (string * string) :=
  match l with
  | [] => [x]
  | y :: l' =>
      if String.leb (fst x) (fst y) then x :: y :: l' else y :: sort_insert x l'
  end.

Fixpoint sort_by_path (l : list (string * string)) : list (string * string) :=
  match l with
  | [] => []
  | x :: l' => sort_insert x (sort_by_path l')
  end.

(** ** The script *)

Definition SYSTEM_PROMPT : string :=
  "You are a helpful developer relations assistant that reads the entire code base and rewrites the README.md file to provide clear instructions, describe the package, list dependencies, and usage examples. Please analyze the code and produce an updated README that maintains a professional developer relations tone, does not use emojis, and includes all necessary information for users to understand and use the package. Output README.md ready for deployment to GitHub. DO NOT WRAP entire output in ```markdown``` tags it's not necessary.".

Definition AI_MODEL : string := "gemini-2.0-flash-thinking-exp-01-21".

Definition BINARY_PLACEHOLDER : string := "[Binary file]".

Section Script.

Context (E : Env).

(** [subprocess.check_output(["git", "ls-files"], stderr=subprocess.PIPE)] *)
Definition check_output_git_ls_files : M string :=
  emit (Spawn ["git"; "ls-files"]);;
  match git_ls_files E with
  | NotStarted e => raise e
  | Exited returncode stdout =>
      if decide (returncode = 0%Z) then mret stdout
      else raise (CalledProcessError returncode)
  end.

(** [genai.Client(api_key=api_key)] followed by
    [client.models.generate_content(model=..., contents=...)]; the value is
    what [response.text] will give. *)
Definition models_generate_content (api_key model contents : string)
    : M (outcome (option string)) :=
  emit (Generate api_key model contents);;
  match generate_content E api_key model contents with
  | CallRaised e => raise e
  | Response text => mret text
  end.

(** [response.text] *)
Definition response_text (text : outcome (option string)) : M (option string) :=
  match text with
  | Ret text => mret text
  | Raise e => raise e
  end.

Definition read_file_content (file_path : string) : M (string * string) :=
  try_except
    (f ← open_r file_path;
     content ← f_read f;
     mret (file_path, content))
    (λ e,
       match e with
       | UnicodeDecodeError => mret (file_path, BINARY_PLACEHOLDER)
       | _ =>
           print ("Warning: Error reading " +:+ file_path +:+ ": " +:+ str_exn E e);;
           mret (file_path, "[Error reading file: " +:+ str_exn E e +:+ "]")
       end).

(** The body of the loop of [get_codebase_summary]:
    [summary += f"--- {file_path} ---\n{content}\n\n"] *)
Definition add_section (summary : string) (result : string * string) : string :=
  summary +:+ ("--- " +:+ fst result +:+ " ---" +:+ nl +:+ snd result +:+ nl +:+ nl).

(** The [try] of [get_codebase_summary] either gives the list of files or
    leaves the function with the string of its [except] clause. *)
Definition get_codebase_summary (sched : list nat) : M string :=
  print "Gathering codebase information...";;
  listed ← try_except
    (stdout ← check_output_git_ls_files;
     text ← decode_utf8 stdout;
     mret (inr (splitlines text)))
    (λ e,
       match e with
       | CalledProcessError _ =>
           print ("Error: Git command failed: " +:+ str_exn E e);;
           mret (inl "Error: Failed to list git files")
       | _ => raise e
       end);
  match listed with
  | inl message => mret message
  | inr files =>
      results ← executor_map sched read_file_content files;
      let results := sort_by_path results in
      let summary := foldl add_section "" results in
      print ("Processed " +:+ pretty (length files) +:+ " files from the codebase");;
      mret summary
  end.

(** Past the test [if not api_key] the variable holds a string that is not
    empty. *)
Definition call_geminiai (prompt : string) : M (option string) :=
  print ("Calling Gemini AI (" +:+ AI_MODEL +:+ ") to generate README...");;
  if truthy (GEMINI_API_KEY E) then
    try_except
      (response ← models_generate_content (default "" (GEMINI_API_KEY E)) AI_MODEL prompt;
       print "Successfully generated README content";;
       response_text response)
      (λ e,
         print ("Error calling Gemini AI: " +:+ str_exn E e);;
         mret None)
  else
    print "Error: GEMINI_API_KEY environment variable not set";;
    mret None.

(** The body of the [try] of [backup_existing_readme]: both files are
    opened, the source first, then the source is read and written to the
    backup. *)
Definition backup_copy : M bool :=
  src ← open_r "README.md";
  dst ← open_w "README.md.bak";
  text ← f_read src;
  f_write (linesep E) dst text;;
  print "Created backup at README.md.bak";;
  mret true.

Definition backup_existing_readme : M bool :=
  there ← path_exists "README.md";
  if there : bool then
    try_except backup_copy
      (λ e,
         print ("Error: Failed to create README backup: " +:+ str_exn E e);;
         mret false)
  else mret true.

(** [full_prompt] of [main] *)
Definition full_prompt (codebase_context : string) : string :=
  SYSTEM_PROMPT +:+ nl +:+ nl +:+ "Codebase files:" +:+ nl +:+ codebase_context.

(** [sched] is the order in which the reads of the pool finish.  Past the
    test [if updated_readme] the variable holds a string that is not empty. *)
Definition main (sched : list nat) : M unit :=
  print "Starting README generation process";;
  backed_up ← backup_existing_readme;
  if negb backed_up then
    print "Error: Aborting due to backup failure"
  else
    codebase_context ← get_codebase_summary sched;
    updated_readme ← call_geminiai (full_prompt codebase_context);
    if truthy updated_readme then
      try_except
        (f ← open_w "README.md";
         f_write (linesep E) f (default "" updated_readme);;
         print "README.md has been successfully updated")
        (λ e, print ("Error: Failed to write README.md: " +:+ str_exn E e))
    else
      print "Error: Failed to generate updated README content".

End Script.

(** * The vocabulary of the properties *)

(** [obeys P keep m Q]: whatever the file system, [m] performs only events
    that satisfy [P], leaves every path of [keep] as it was, and a value it
    returns satisfies [Q]. *)
Definition obeys (P : event → Prop) (keep : string → Prop) {A} (m : M A)
    (Q : A → Prop) : Prop :=
  ∀ fs, ∃ r fs1 evs,
    m fs = (r, fs1, evs)
    ∧ Forall P evs
    ∧ (∀ p, keep p → fs1 !! p = fs !! p)
    ∧ (∀ a, r = Ret a → Q a).

(** The call [fn x] returns [b] and leaves the file system [fs] as it was. *)
Definition returned {A B} (fn : A → M B) (fs : gmap string node) (x : A) (b : B) : Prop :=
  ∃ evs, fn x fs = (Ret b, fs, evs).

(** The invariant of a pool whose calls only read: the file system is still
    [fs], there is one future per argument, the events are events of [P], and
    a future that is done holds the value its call returns. *)
Definition pool_inv {A B} (P : event → Prop) (fn : A → M B) (args : list A)
    (fs : gmap string node) (st : pool B) : Prop :=
  match st with
  | (futs, fs1, evs) =>
      fs1 = fs ∧ length futs = length args ∧ Forall P evs
      ∧ ∀ i r, futs !! i = Some (Some r) →
          ∃ x b, args !! i = Some x ∧ r = Ret b ∧ returned fn fs x b
  end.

(** The call of index [i] is done. *)
Definition finished {B} (st : pool B) (i : nat) : Prop :=
  ∃ r, st.1.1 !! i = Some (Some r).

(** The events of a computation that only reads: lines printed and files
    opened for reading. *)
Definition reads_only (ev : event) : Prop :=
  match ev with
  | Print _ | Open _ ModeR => True
  | _ => False
  end.

(** The content that [read_file_content] returns for a path. *)
Definition content_of (E : Env) (fs : gmap string node) (file_path : string) : string :=
  match read_file_content E file_path fs with
  | (Ret (_, content), _, _) => content
  | (Raise _, _, _) => ""
  end.

(** The order of the sort: the paths of two results compared as strings. *)
Definition by_path (x y : string * string) : Prop := String.le x.1 y.1.

(** The layout of the summary: for each result a delimiter line with the
    path, the content and a blank line. *)
Fixpoint sections (results : list (string * string)) : string :=
  match results with
  | [] => ""
  | (file_path, content) :: rest =>
      "--- " +:+ file_path +:+ " ---" +:+ nl +:+ content +:+ nl +:+ nl +:+ sections rest
  end.

(** The results of the reads over a list of files. *)
Definition read_all (E : Env) (fs : gmap string node) (files : list string)
    : list (string * string) :=
  (λ file_path, (file_path, content_of E fs file_path)) <$> files.

(** Events of the File Enumerator and of the reads. *)
Definition gathering (ev : event) : Prop :=
  reads_only ev ∨ ev = Spawn ["git"; "ls-files"].

(** The remote call fails: it raises, or the text of the response cannot be
    read, is absent or is empty. *)
Definition failed (r : response) : Prop :=
  match r with
  | CallRaised _ | Response (Raise _) => True
  | Response (Ret text) => truthy text = false
  end.

(** What the backup holds after a copy that completes: the bytes of the
    README, read as text and written as text. *)
Definition through_text_mode (E : Env) (data : string) : string :=
  translate_newlines (linesep E) (universal_newlines data).

(** The text holds no carriage return. *)
Fixpoint no_cr (s : string) : bool :=
  match s with
  | EmptyString => true
  | String a rest => if decide (a = CR) then false else no_cr rest
  end.

(** The event is a request sent to the endpoint. *)
Definition is_generate (ev : event) : Prop := ∃ api_key model contents,
  ev = Generate api_key model contents.

(** Events of the backup step: lines printed, [README.md] opened to read and
    [README.md.bak] opened to write.  No process is spawned, no other file is
    opened and nothing is sent to the endpoint. *)
Definition backing_up (ev : event) : Prop :=
  match ev with
  | Print _ => True
  | Open path ModeR => path = "README.md"
  | Open path ModeW => path = "README.md.bak"
  | _ => False
  end.

(** The prompt that [main] builds from the summary of the code base. *)
Definition assembled_prompt (E : Env) (sched : list nat) (fs : gmap string node)
    : outcome string :=
  match get_codebase_summary E sched fs with
  | (Ret codebase_context, _, _) => Ret (full_prompt codebase_context)
  | (Raise e, _, _) => Raise e
  end.

(** The requests among the events of a run: the key, the model and the
    contents of each, in order. *)
Definition requests (evs : list event) : list (string * string * string) :=
  omap (λ ev,
          match ev with
          | Generate api_key model contents => Some (api_key, model, contents)
          | _ => None
          end) evs.

(** Events of the Generation Client: lines printed and requests sent. *)
Definition calling (ev : event) : Prop :=
  match ev with
  | Print _ | Generate _ _ _ => True
  | _ => False
  end.

(** Events of the write step: lines printed and [README.md] opened to
    write. *)
Definition writing (ev : event) : Prop :=
  match ev with
  | Print _ => True
  | Open path ModeW => path = "README.md"
  | _ => False
  end.

(** The last step of [main], taken when there is a text to write. *)
Definition write_readme (E : Env) (text : string) : M unit :=
  try_except
    (f ← open_w "README.md";
     f_write (linesep E) f text;;
     print "README.md has been successfully updated")
    (λ e, print ("Error: Failed to write README.md: " +:+ str_exn E e)).

(** The output of a command that prints each line followed by a line
    feed. *)
Definition unlines (lines : list string) : string :=
  foldr (λ line out, line +:+ nl +:+ out) "" lines.

(** No position of the string starts a line boundary. *)
Fixpoint no_boundary (s : string) : bool :=
  match s with
  | EmptyString => true
  | String a rest =>
      match line_boundary s with
      | O => no_boundary rest
      | S _ => false
      end
  end.

(** The files opened for reading among the events, in order. *)
Definition opened (evs : list event) : list string :=
  omap (λ ev,
          match ev with
          | Open path ModeR => Some path
          | _ => None
          end) evs.

(** The events of the calls of a pool that are done, in the order of the
    arguments. *)
Definition done_events {A B} (fn : A → M B) (fs : gmap string node)
    (args : list A) (futs : list (option (outcome B))) : list event :=
  concat (zip_with (λ x fut,
                      match fut with
                      | Some _ => (fn x fs).2
                      | None => []
                      end) args futs).

(** * Sample worlds *)

(** One rendering of the text of an exception. *)
Definition str_exn_sample (e : exn) : string :=
  match e with
  | UnicodeDecodeError => "'utf-8' codec can't decode bytes"
  | FileNotFoundError filename =>
      "[Errno 2] No such file or directory: '" +:+ filename +:+ "'"
  | PermissionError filename => "[Errno 13] Permission denied: '" +:+ filename +:+ "'"
  | IsADirectoryError filename => "[Errno 21] Is a directory: '" +:+ filename +:+ "'"
  | CalledProcessError returncode =>
      "Command '['git', 'ls-files']' returned non-zero exit status "
      +:+ pretty returncode +:+ "."
  | ClientError detail => detail
  end.

(** A POSIX machine: the line separator is a line feed. *)
Definition posix (git : process) (api_key : option string) (answer : response) : Env :=
  {| git_ls_files := git;
     GEMINI_API_KEY := api_key;
     generate_content := λ _ _ _, answer;
     linesep := nl;
     str_exn := str_exn_sample |}.

(** The string of the bytes of a list. *)
Definition bytes (l : list N) : string :=
  foldr (λ b s, String (ascii_of_N b) s) "" l.

(** A byte that starts no UTF-8 sequence. *)
Definition xFF : string := bytes [255%N].

(** A directory that holds an earlier backup and no README. *)
Definition fs_only_backup : gmap string node :=
  {[ "README.md.bak" := File "# Old" true true ]}.

(** A README whose lines end in CR LF, the same text with LF line ends, and
    a directory that holds the former. *)
Definition readme_crlf : string :=
  "# EmbedKit" +:+ String CR nl +:+ "Usage" +:+ String CR nl.

Definition readme_lf : string := "# EmbedKit" +:+ nl +:+ "Usage" +:+ nl.

Definition fs_crlf : gmap string node := {[ "README.md" := File readme_crlf true true ]}.

(** A repository with a README, a text file and a file that is not text, and
    the output of [git ls-files] there, in two orders. *)
Definition fs_sample : gmap string node :=
  <["README.md" := File "# Old" true true]>
    (<["a.txt" := File "hello" true true]>
       (<["b.bin" := File xFF true true]> ∅)).

Definition git_sample : process := Exited 0 ("a.txt" +:+ nl +:+ "b.bin" +:+ nl).

Definition git_sample_reversed : process := Exited 0 ("b.bin" +:+ nl +:+ "a.txt" +:+ nl).

(** A directory whose README is not valid UTF-8, with an earlier backup. *)
Definition fs_binary_readme : gmap string node :=
  <["README.md" := File xFF true true]>
    {[ "README.md.bak" := File "# Previous backup" true true ]}.

(** Outside a repository [git ls-files] exits with status 128; where git is
    not installed it cannot be started. *)
Definition env_not_a_repository : Env :=
  posix (Exited 128 "") (Some "secret") (Response (Ret (Some "# Generated"))).

Definition env_no_git : Env :=
  posix (NotStarted (FileNotFoundError "git")) (Some "secret")
    (Response (Ret (Some "# Generated"))).

(** The sample repository without its README. *)
Definition fs_sample_no_readme : gmap string node := delete "README.md" fs_sample.

(** A machine with a key on which the endpoint answers with a text. *)
Definition env_answering : Env :=
  posix git_sample (Some "secret") (Response (Ret (Some "# New"))).

(** The sample repository with a README that cannot be written. *)
Definition fs_read_only_readme : gmap string node :=
  <["README.md" := File "# Old" true false]> fs_sample.

(** A directory with one text file whose lines end in CR LF. *)
Definition fs_crlf_text : gmap string node :=
  {[ "a.txt" := File ("one" +:+ String CR nl +:+ "two" +:+ String CR nl) true true ]}.

(** A machine on which the endpoint refuses a prompt of more than 100
    characters and answers a shorter one. *)
Definition env_prompt_limit : Env :=
  {| git_ls_files := git_sample;
     GEMINI_API_KEY := Some "secret";
     generate_content := λ _ _ contents,
       if decide (100 < String.length contents)
       then CallRaised (ClientError "400 INVALID_ARGUMENT")
       else Response (Ret (Some "# Generated"));
     linesep := nl;
     str_exn := str_exn_sample |}.

(** * Properties *)

(** ** Tactics *)

(** Unfolding of the operations on computations. *)
Ltac unfold_M :=
  unfold mbind, mret, M_bind, M_ret, run_bind, run_ret, try_except, raise,
    print, emit.

(** Membership of an event in a list of events that is known. *)
Ltac in_events :=
  repeat first [rewrite elem_of_app | rewrite elem_of_cons]; naive_solver.

(** ** Strings *)

Lemma append_nil_l (s : string) : "" +:+ s = s.
Proof. done. Qed.

Lemma append_cons (a : ascii) (s t : string) : String a s +:+ t = String a (s +:+ t).
Proof. done. Qed.

Lemma append_nil_r (s : string) : s +:+ "" = s.
Proof. induction s as [|a s IH]; [done|]. rewrite append_cons. by f_equal. Qed.

Lemma append_assoc (s1 s2 s3 : string) : (s1 +:+ s2) +:+ s3 = s1 +:+ (s2 +:+ s3).
Proof.
  induction s1 as [|a s1 IH]; [done|]. rewrite !append_cons. by f_equal.
Qed.

Lemma splitlines_sample :
  splitlines ("a.txt" +:+ nl +:+ "b.bin" +:+ nl) = ["a.txt"; "b.bin"].
Proof. reflexivity. Qed.

Lemma splitlines_sample_reversed :
  splitlines ("b.bin" +:+ nl +:+ "a.txt" +:+ nl) = ["b.bin"; "a.txt"].
Proof. reflexivity. Qed.

(** The decoder on the boundaries of UTF-8: two, three and four byte
    sequences, an overlong form, a surrogate, a sequence cut short and a code
    point above U+10FFFF. *)
Example utf8_valid_sequences :
  utf8_valid "hello" = true
  ∧ utf8_valid (bytes [195; 169; 226; 130; 172; 240; 157; 132; 158]%N) = true
  ∧ utf8_valid (bytes [192; 128]%N) = false
  ∧ utf8_valid (bytes [237; 160; 128]%N) = false
  ∧ utf8_valid (bytes [226; 130]%N) = false
  ∧ utf8_valid (bytes [244; 144; 128; 128]%N) = false
  ∧ utf8_valid xFF = false.
Proof. repeat split; reflexivity. Qed.

Example universal_newlines_line_ends :
  universal_newlines (bytes [97; 13; 10; 98; 13; 99; 10; 13]%N)
  = bytes [97; 10; 98; 10; 99; 10; 10]%N.
Proof. reflexivity. Qed.

Example translate_newlines_crlf :
  translate_newlines (bytes [13; 10]%N) (bytes [97; 10; 98]%N)
  = bytes [97; 13; 10; 98]%N.
Proof. reflexivity. Qed.

Example splitlines_boundaries :
  splitlines "" = []
  ∧ splitlines (bytes [10]%N) = [""]
  ∧ splitlines (bytes [97; 10; 10; 13; 10; 98]%N) = ["a"; ""; ""; "b"]
  ∧ splitlines (bytes [97; 226; 128; 168; 98; 194; 133; 99; 28; 100]%N)
    = ["a"; "b"; "c"; "d"]
  ∧ splitlines (bytes [97; 226; 128; 167; 98]%N) = [bytes [97; 226; 128; 167; 98]%N].
Proof. repeat split; reflexivity. Qed.

(** The sort keeps the order of results with the same path. *)
Example sort_by_path_sample :
  sort_by_path [("b", "1"); ("a", "2"); ("b", "0"); ("B", "3")]
  = [("B", "3"); ("a", "2"); ("b", "1"); ("b", "0")].
Proof. reflexivity. Qed.

(** ** Computations, one step at a time *)

Lemma bind_Ret {A B} (m : M A) (k : A → M B) fs a fs1 evs1 r fs2 evs2 :
  m fs = (Ret a, fs1, evs1) →
  k a fs1 = (r, fs2, evs2) →
  (m ≫= k) fs = (r, fs2, evs1 ++ evs2).
Proof.
  intros Hm Hk. unfold mbind, M_bind, run_bind. by rewrite Hm, Hk.
Qed.

Lemma bind_Raise {A B} (m : M A) (k : A → M B) fs e fs1 evs1 :
  m fs = (Raise e, fs1, evs1) →
  (m ≫= k) fs = (Raise e, fs1, evs1).
Proof.
  intros Hm. unfold mbind, M_bind, run_bind. by rewrite Hm.
Qed.

Lemma try_Ret {A} (body : M A) handler fs a fs1 evs1 :
  body fs = (Ret a, fs1, evs1) →
  try_except body handler fs = (Ret a, fs1, evs1).
Proof. intros Hb. unfold try_except. by rewrite Hb. Qed.

Lemma try_Raise {A} (body : M A) handler fs e fs1 evs1 r fs2 evs2 :
  body fs = (Raise e, fs1, evs1) →
  handler e fs1 = (r, fs2, evs2) →
  try_except body handler fs = (r, fs2, evs1 ++ evs2).
Proof. intros Hb Hh. unfold try_except. by rewrite Hb, Hh. Qed.

(** ** What a computation may do *)

Section Obeys.

Context (P : event → Prop) (keep : string → Prop).

(** The four parts of [obeys] once the triple is known. *)
Ltac obeys_parts :=
  split; [reflexivity|];
  split; [first [apply Forall_nil | apply Forall_singleton]; by auto|];
  split; [by auto|];
  first [done | by intros ? [= <-]].

Lemma obeys_weaken {A} (m : M A) (Q Q' : A → Prop) :
  obeys P keep m Q → (∀ a, Q a → Q' a) → obeys P keep m Q'.
Proof.
  intros Hm HQ fs. destruct (Hm fs) as (r & fs1 & evs & ? & ? & ? & ?).
  exists r, fs1, evs. naive_solver.
Qed.

Lemma obeys_ret {A} (a : A) (Q : A → Prop) : Q a → obeys P keep (mret a) Q.
Proof. intros Ha fs. exists (Ret a), fs, []. obeys_parts. Qed.

Lemma obeys_raise {A} (e : exn) (Q : A → Prop) : obeys P keep (raise e) Q.
Proof. intros fs. exists (Raise e), fs, []. obeys_parts. Qed.

Lemma obeys_bind {A B} (m : M A) (k : A → M B) (Q : A → Prop) (R : B → Prop) :
  obeys P keep m Q → (∀ a, Q a → obeys P keep (k a) R) → obeys P keep (m ≫= k) R.
Proof.
  intros Hm Hk fs.
  destruct (Hm fs) as (r & fs1 & evs1 & Em & HP1 & Hkeep1 & HQ).
  destruct r as [a|e].
  - destruct (Hk a (HQ a eq_refl) fs1) as (r2 & fs2 & evs2 & Ek & HP2 & Hkeep2 & HR).
    exists r2, fs2, (evs1 ++ evs2). split; [by apply bind_Ret with a fs1|].
    split; [by apply Forall_app|]. split; [|done].
    intros p Hp. by rewrite Hkeep2, Hkeep1.
  - exists (Raise e), fs1, evs1. split; [by apply bind_Raise|]. by split.
Qed.

Lemma obeys_try {A} (body : M A) (handler : exn → M A) (Q : A → Prop) :
  obeys P keep body Q → (∀ e, obeys P keep (handler e) Q) → obeys P keep (try_except body handler) Q.
Proof.
  intros Hb Hh fs.
  destruct (Hb fs) as (r & fs1 & evs1 & Eb & HP1 & Hkeep1 & HQ).
  destruct r as [a|e].
  - exists (Ret a), fs1, evs1. split; [by apply try_Ret|]. by split.
  - destruct (Hh e fs1) as (r2 & fs2 & evs2 & Eh & HP2 & Hkeep2 & HQ2).
    exists r2, fs2, (evs1 ++ evs2). split; [by apply try_Raise with e fs1|].
    split; [by apply Forall_app|]. split; [|done].
    intros p Hp. by rewrite Hkeep2, Hkeep1.
Qed.

Lemma obeys_emit (ev : event) : P ev → obeys P keep (emit ev) (λ _, True).
Proof. intros Hev fs. exists (Ret tt), fs, [ev]. obeys_parts. Qed.

Lemma obeys_print (line : string) : P (Print line) → obeys P keep (print line) (λ _, True).
Proof. apply obeys_emit. Qed.

Lemma obeys_path_exists (path : string) : obeys P keep (path_exists path) (λ _, True).
Proof. intros fs. eexists _, fs, []. obeys_parts. Qed.

Lemma obeys_open_r (path : string) :
  P (Open path ModeR) → obeys P keep (open_r path) (λ f, f = path).
Proof.
  intros Hev fs. unfold open_r.
  destruct (fs !! path) as [[data [] w|]|];
    eexists _, fs, [Open path ModeR]; obeys_parts.
Qed.

Lemma obeys_f_read (f : string) : obeys P keep (f_read f) (λ _, True).
Proof.
  intros fs. unfold f_read.
  destruct (fs !! f) as [[data r w|]|]; [destruct (utf8_valid data)|..];
    eexists _, fs, []; obeys_parts.
Qed.

Lemma obeys_open_w (path : string) :
  P (Open path ModeW) → ¬ keep path → obeys P keep (open_w path) (λ f, f = path).
Proof.
  intros Hev Hpath fs. unfold open_w.
  assert (∀ n p, keep p → <[path := n]> fs !! p = fs !! p) as Hframe.
  { intros n p Hp. apply lookup_insert_ne. by intros ->. }
  destruct (fs !! path) as [[data r []|]|];
    eexists _, _, [Open path ModeW]; obeys_parts.
Qed.

Lemma obeys_f_write (linesep f text : string) :
  ¬ keep f → obeys P keep (f_write linesep f text) (λ _, True).
Proof.
  intros Hf fs. unfold f_write.
  assert (∀ n p, keep p → <[f := n]> fs !! p = fs !! p) as Hframe.
  { intros n p Hp. apply lookup_insert_ne. by intros ->. }
  destruct (fs !! f) as [[data r w|]|]; eexists _, _, []; obeys_parts.
Qed.

Lemma obeys_decode_utf8 (b : string) : obeys P keep (decode_utf8 b) (λ _, True).
Proof.
  unfold decode_utf8. destruct (utf8_valid b); [by apply obeys_ret|apply obeys_raise].
Qed.

End Obeys.

(** ** The Content Reader *)

Lemma read_file_content_returns (E : Env) (file_path : string) (fs : gmap string node) :
  ∃ content evs,
    read_file_content E file_path fs = (Ret (file_path, content), fs, evs)
    ∧ Forall reads_only evs.
Proof.
  unfold read_file_content, try_except, mbind, M_bind, run_bind, open_r, f_read.
  destruct (fs !! file_path) as [[data [] w|]|] eqn:Hnode; simpl.
  - rewrite Hnode. destruct (utf8_valid data); simpl;
      eexists _, _; (split; [reflexivity|]); by repeat constructor.
  - eexists _, _; (split; [reflexivity|]); by repeat constructor.
  - eexists _, _; (split; [reflexivity|]); by repeat constructor.
  - eexists _, _; (split; [reflexivity|]); by repeat constructor.
Qed.

Lemma read_file_content_eq (E : Env) (file_path : string) (fs : gmap string node) :
  ∃ evs,
    read_file_content E file_path fs = (Ret (file_path, content_of E fs file_path), fs, evs)
    ∧ Forall reads_only evs.
Proof.
  destruct (read_file_content_returns E file_path fs) as (content & evs & Hr & Hevs).
  exists evs. split; [|done]. unfold content_of. by rewrite Hr.
Qed.

Lemma content_of_text (E : Env) (fs : gmap string node) (file_path data : string)
    (w : bool) :
  fs !! file_path = Some (File data true w) →
  utf8_valid data = true →
  content_of E fs file_path = universal_newlines data.
Proof.
  intros Hnode Hvalid. unfold content_of, read_file_content, open_r, f_read.
  unfold_M. rewrite Hnode. simpl. by rewrite Hnode, Hvalid.
Qed.

Lemma read_file_content_binary (E : Env) (fs : gmap string node)
    (file_path data : string) (w : bool) :
  fs !! file_path = Some (File data true w) →
  utf8_valid data = false →
  read_file_content E file_path fs
  = (Ret (file_path, BINARY_PLACEHOLDER), fs, [Open file_path ModeR]).
Proof.
  intros Hnode Hvalid. unfold read_file_content, open_r, f_read.
  unfold_M. rewrite Hnode. simpl. by rewrite Hnode, Hvalid.
Qed.

Lemma content_of_binary (E : Env) (fs : gmap string node) (file_path data : string)
    (w : bool) :
  fs !! file_path = Some (File data true w) →
  utf8_valid data = false →
  content_of E fs file_path = BINARY_PLACEHOLDER.
Proof.
  intros Hnode Hvalid. unfold content_of.
  by rewrite (read_file_content_binary E fs file_path data w).
Qed.

(** ** The thread pool *)

(** Two reads that finish in the reverse order: the events come in the order
    in which the reads finished, the results in the order of the arguments. *)
Example executor_map_reversed :
  executor_map [1; 0] (read_file_content (posix git_sample None (Response (Ret None))))
    ["a.txt"; "b.bin"] fs_sample
  = (Ret [("a.txt", "hello"); ("b.bin", "[Binary file]")], fs_sample,
     [Open "b.bin" ModeR; Open "a.txt" ModeR]).
Proof. by vm_compute. Qed.

Section Pool.

Context {A B : Type} (P : event → Prop) (fn : A → M B) (args : list A).
Context (fs : gmap string node).

(** Every call returns, leaves the file system as it was and performs events
    of [P] only. *)
Hypothesis fn_reads : ∀ x, ∃ b evs, fn x fs = (Ret b, fs, evs) ∧ Forall P evs.

Lemma complete_inv (st : pool B) (i : nat) :
  pool_inv P fn args fs st → pool_inv P fn args fs (complete fn args st i).
Proof.
  destruct st as [[futs fs1] evs]. intros (-> & Hlen & Hevs & Hfuts).
  unfold complete.
  destruct (futs !! i) as [[r|]|] eqn:Hi; [done| |done].
  destruct (args !! i) as [x|] eqn:Hx; [|done].
  destruct (fn_reads x) as (b & evs1 & Hfn & Hevs1). rewrite Hfn.
  split; [done|]. split; [by rewrite length_insert|].
  split; [by apply Forall_app|].
  intros j r Hj. destruct (decide (i = j)) as [<-|Hne].
  - rewrite list_lookup_insert_eq in Hj by (by eapply lookup_lt_Some).
    injection Hj as <-. exists x, b. repeat split; [done|]. by exists evs1.
  - rewrite list_lookup_insert_ne in Hj by done. by apply Hfuts.
Qed.

Lemma complete_length (st : pool B) (i : nat) :
  length (complete fn args st i).1.1 = length st.1.1.
Proof.
  destruct st as [[futs fs1] evs]. unfold complete.
  destruct (futs !! i) as [[r|]|]; [done| |done].
  destruct (args !! i) as [x|]; [|done].
  destruct (fn x fs1) as [[r fs2] evs1]. simpl. by rewrite length_insert.
Qed.

Lemma complete_finished (st : pool B) (i : nat) :
  length st.1.1 = length args → i < length args →
  finished (complete fn args st i) i.
Proof.
  destruct st as [[futs fs1] evs]. simpl. intros Hlen Hi.
  unfold complete, finished.
  destruct (futs !! i) as [[r|]|] eqn:Hfut; [by exists r| |].
  - destruct (args !! i) as [x|] eqn:Hx.
    + destruct (fn x fs1) as [[r fs2] evs1]. exists r. simpl.
      apply list_lookup_insert_eq. lia.
    + apply lookup_ge_None in Hx. lia.
  - apply lookup_ge_None in Hfut. lia.
Qed.

Lemma complete_keeps_finished (st : pool B) (i j : nat) :
  finished st j → finished (complete fn args st i) j.
Proof.
  destruct st as [[futs fs1] evs]. intros [r Hr]. simpl in Hr.
  unfold complete, finished.
  destruct (futs !! i) as [[r'|]|] eqn:Hi; [by exists r| |by exists r].
  destruct (args !! i) as [x|]; [|by exists r].
  destruct (fn x fs1) as [[r1 fs2] evs1]. exists r. simpl.
  rewrite list_lookup_insert_ne; [done|]. intros ->. congruence.
Qed.

Lemma foldl_complete_inv (l : list nat) (st : pool B) :
  pool_inv P fn args fs st → pool_inv P fn args fs (foldl (complete fn args) st l).
Proof.
  revert st. induction l as [|i l IH]; intros st Hst; [done|].
  simpl. apply IH. by apply complete_inv.
Qed.

Lemma foldl_complete_keeps_finished (l : list nat) (st : pool B) (j : nat) :
  finished st j → finished (foldl (complete fn args) st l) j.
Proof.
  revert st. induction l as [|i l IH]; intros st Hst; [done|].
  simpl. apply IH. by apply complete_keeps_finished.
Qed.

Lemma foldl_complete_finished (l : list nat) (st : pool B) (j : nat) :
  length st.1.1 = length args → j ∈ l → j < length args →
  finished (foldl (complete fn args) st l) j.
Proof.
  revert st. induction l as [|i l IH]; intros st Hst Hj Hlt.
  { by apply elem_of_nil in Hj. }
  simpl. apply elem_of_cons in Hj as [->|Hj].
  - apply foldl_complete_keeps_finished. by apply complete_finished.
  - apply IH; [by rewrite complete_length|done..].
Qed.

(** The pool waits: when the results are taken every call is done, whatever
    the calls do and whatever the schedule. *)
Lemma executor_waits (sched : list nat) (fs0 : gmap string node) (j : nat) :
  j < length args →
  finished (foldl (complete fn args) (replicate (length args) None, fs0, [])
              (sched ++ seq 0 (length args))) j.
Proof.
  intros Hj. apply foldl_complete_finished; [|apply elem_of_app; right|done].
  - simpl. by rewrite length_replicate.
  - apply elem_of_seq. lia.
Qed.

Lemma gather_returned (xs : list A) (futs : list (future B)) :
  Forall2 (λ x fut, ∃ b, fut = Some (Ret b) ∧ returned fn fs x b) xs futs →
  ∃ bs, gather futs = Ret bs ∧ Forall2 (returned fn fs) xs bs.
Proof.
  induction 1 as [|x fut xs futs (b & -> & Hb) _ (bs & Hbs & IH)].
  - by exists [].
  - exists (b :: bs). simpl. rewrite Hbs. split; [done|]. by constructor.
Qed.

(** Whatever the schedule, the pool hands back the values of the calls in
    the order of the arguments. *)
Lemma executor_map_returned (sched : list nat) :
  ∃ bs evs,
    executor_map sched fn args fs = (Ret bs, fs, evs)
    ∧ Forall P evs
    ∧ Forall2 (returned fn fs) args bs.
Proof.
  unfold executor_map.
  set (st0 := (replicate (length args) None, fs, []) : pool B).
  assert (pool_inv P fn args fs st0) as Hst0.
  { split; [done|]. split; [by rewrite length_replicate|]. split; [done|].
    intros i r Hi. apply lookup_replicate in Hi as [? _]. done. }
  pose proof (foldl_complete_inv (sched ++ seq 0 (length args)) st0 Hst0) as Hinv.
  pose proof (executor_waits sched fs) as Hfin. fold st0 in Hfin.
  destruct (foldl (complete fn args) st0 (sched ++ seq 0 (length args)))
    as [[futs fs1] evs].
  destruct Hinv as (-> & Hlen & Hevs & Hfuts).
  destruct (gather_returned args futs) as (bs & Hbs & Hret).
  { apply Forall2_same_length_lookup_2; [done|].
    intros i x fut Hx Hfut.
    destruct (Hfin i) as [r Hr]; [by eapply lookup_lt_Some|].
    simpl in Hr. rewrite Hfut in Hr. injection Hr as ->.
    destruct (Hfuts i r Hfut) as (x' & b & Hx' & -> & Hb).
    exists b. split; [done|]. congruence. }
  exists bs, evs. by rewrite Hbs.
Qed.

End Pool.

(** ** Sorting by path *)

#[local] Instance by_path_trans : Transitive by_path.
Proof. intros x y z. unfold by_path. apply transitivity. Qed.

Lemma by_path_leb (x y : string * string) :
  String.leb x.1 y.1 = true ↔ by_path x y.
Proof. unfold by_path, String.le. by rewrite Is_true_true. Qed.

Lemma by_path_not_leb (x y : string * string) :
  String.leb x.1 y.1 = false → by_path y x.
Proof.
  intros Hxy. destruct (total String.le x.1 y.1) as [H|H]; [|done].
  apply Is_true_true in H. congruence.
Qed.

Lemma sort_insert_Permutation (x : string * string) (l : list (string * string)) :
  sort_insert x l ≡ₚ x :: l.
Proof.
  induction l as [|y l IH]; simpl; [done|].
  destruct (String.leb x.1 y.1); [done|]. rewrite IH. apply Permutation_swap.
Qed.

Lemma sort_by_path_Permutation (l : list (string * string)) : sort_by_path l ≡ₚ l.
Proof.
  induction l as [|x l IH]; simpl; [done|].
  by rewrite sort_insert_Permutation, IH.
Qed.

Lemma sort_insert_HdRel (x y : string * string) (l : list (string * string)) :
  by_path y x → HdRel by_path y l → HdRel by_path y (sort_insert x l).
Proof.
  intros Hyx Hl. destruct l as [|z l]; simpl; [by constructor|].
  destruct (String.leb x.1 z.1); constructor; [done|]. by inversion Hl.
Qed.

Lemma sort_insert_Sorted (x : string * string) (l : list (string * string)) :
  Sorted by_path l → Sorted by_path (sort_insert x l).
Proof.
  induction 1 as [|y l Hl IH Hy]; simpl; [by repeat constructor|].
  destruct (String.leb x.1 y.1) eqn:Hxy.
  - constructor; [by constructor|]. constructor. by apply by_path_leb.
  - constructor; [done|]. apply sort_insert_HdRel; [|done].
    by apply by_path_not_leb.
Qed.

Lemma sort_by_path_Sorted (l : list (string * string)) : Sorted by_path (sort_by_path l).
Proof.
  induction l as [|x l IH]; simpl; [constructor|]. by apply sort_insert_Sorted.
Qed.

(** The sort is stable: the results of one path keep the order they had. *)
Lemma sort_insert_stable (path : string) (x : string * string) (l : list (string * string)) :
  filter (λ y, y.1 = path) (sort_insert x l) = filter (λ y, y.1 = path) (x :: l).
Proof.
  induction l as [|y l IH]; simpl; [done|].
  destruct (String.leb x.1 y.1) eqn:Hxy; [done|].
  rewrite filter_cons, IH, !filter_cons.
  destruct (decide (y.1 = path)) as [Hy|Hy], (decide (x.1 = path)) as [Hx|Hx];
    try done.
  exfalso. rewrite Hx, <-Hy in Hxy.
  assert (by_path y y) as Hrefl by (unfold by_path; done).
  apply by_path_leb in Hrefl. congruence.
Qed.

Lemma sort_by_path_stable (path : string) (l : list (string * string)) :
  filter (λ y, y.1 = path) (sort_by_path l) = filter (λ y, y.1 = path) l.
Proof.
  induction l as [|x l IH]; simpl; [done|].
  by rewrite sort_insert_stable, !filter_cons, IH.
Qed.

(** When a path has one content, the sorted list does not depend on the order
    in which the results came. *)
Lemma sort_by_path_order_irrelevant (l1 l2 : list (string * string)) :
  l1 ≡ₚ l2 →
  (∀ x y, x ∈ l1 → y ∈ l1 → x.1 = y.1 → x = y) →
  sort_by_path l1 = sort_by_path l2.
Proof.
  intros Hperm Hfun.
  apply (Sorted_unique_strong by_path); [|apply sort_by_path_Sorted..|].
  - intros x y Hx Hy Hxy Hyx.
    rewrite sort_by_path_Permutation in Hx.
    rewrite sort_by_path_Permutation, <-Hperm in Hy.
    apply Hfun; [done..|]. by apply (anti_symm String.le).
  - by rewrite !sort_by_path_Permutation.
Qed.

(** ** The summary of the code base and the prompt *)

Lemma foldl_add_section (results : list (string * string)) (summary : string) :
  foldl add_section summary results = summary +:+ sections results.
Proof.
  revert summary. induction results as [|[file_path content] rest IH]; intros summary.
  - by rewrite append_nil_r.
  - simpl. rewrite IH. unfold add_section. simpl.
    by rewrite !append_assoc.
Qed.

Lemma sections_app (l1 l2 : list (string * string)) :
  sections (l1 ++ l2) = sections l1 +:+ sections l2.
Proof.
  induction l1 as [|[file_path content] l1 IH]; [done|].
  simpl. rewrite IH. by rewrite !append_assoc.
Qed.

Lemma returned_read_all (E : Env) (fs : gmap string node) (files : list string)
    (results : list (string * string)) :
  Forall2 (returned (read_file_content E) fs) files results →
  results = read_all E fs files.
Proof.
  induction 1 as [|file_path result files results [evs Hr] _ IH]; [done|].
  unfold read_all. rewrite fmap_cons. f_equal; [|done].
  destruct (read_file_content_eq E file_path fs) as (evs' & Hr' & _). congruence.
Qed.

Lemma read_all_functional (E : Env) (fs : gmap string node) (files : list string)
    (x y : string * string) :
  x ∈ read_all E fs files → y ∈ read_all E fs files → x.1 = y.1 → x = y.
Proof.
  unfold read_all. intros (p & -> & _)%list_elem_of_fmap (q & -> & _)%list_elem_of_fmap.
  simpl. by intros ->.
Qed.

Lemma read_all_Permutation (E : Env) (fs : gmap string node) (files1 files2 : list string) :
  files1 ≡ₚ files2 → read_all E fs files1 ≡ₚ read_all E fs files2.
Proof. unfold read_all. by intros ->. Qed.

Lemma read_all_ext (E1 E2 : Env) (fs1 fs2 : gmap string node) (files : list string) :
  (∀ file_path, file_path ∈ files →
     content_of E1 fs1 file_path = content_of E2 fs2 file_path) →
  read_all E1 fs1 files = read_all E2 fs2 files.
Proof.
  intros Hsame. unfold read_all. apply list_fmap_ext.
  intros i file_path Hi. f_equal. apply Hsame. by eapply list_elem_of_lookup_2.
Qed.

Lemma get_codebase_summary_listed (E : Env) (sched : list nat)
    (fs : gmap string node) (stdout : string) :
  git_ls_files E = Exited 0 stdout →
  utf8_valid stdout = true →
  ∃ evs,
    get_codebase_summary E sched fs
    = (Ret (sections (sort_by_path (read_all E fs (splitlines stdout)))), fs, evs)
    ∧ Forall gathering evs.
Proof.
  intros Hgit Hvalid.
  destruct (executor_map_returned reads_only (read_file_content E)
              (splitlines stdout) fs) with (sched := sched)
    as (results & evs & Hmap & Hevs & Hres).
  { intros x. destruct (read_file_content_returns E x fs) as (c & evs & ? & ?).
    by exists (x, c), evs. }
  apply returned_read_all in Hres as ->.
  unfold get_codebase_summary, check_output_git_ls_files, decode_utf8.
  unfold_M. rewrite Hgit. simpl. rewrite Hvalid, Hmap. simpl.
  eexists. split.
  - by rewrite foldl_add_section, append_nil_l.
  - constructor; [by left|]. constructor; [by right|].
    apply Forall_app. split.
    + eapply Forall_impl; [done|]. intros ev ?. by left.
    + constructor; [by left|done].
Qed.

Lemma get_codebase_summary_git_failed (E : Env) (sched : list nat)
    (fs : gmap string node) (returncode : Z) (stdout : string) :
  git_ls_files E = Exited returncode stdout →
  returncode ≠ 0%Z →
  get_codebase_summary E sched fs
  = (Ret "Error: Failed to list git files", fs,
     [Print "Gathering codebase information...";
      Spawn ["git"; "ls-files"];
      Print ("Error: Git command failed: " +:+ str_exn E (CalledProcessError returncode))]).
Proof.
  intros Hgit Hcode.
  unfold get_codebase_summary, check_output_git_ls_files.
  unfold_M. rewrite Hgit. by destruct (decide (returncode = 0%Z)).
Qed.

Lemma get_codebase_summary_not_started (E : Env) (sched : list nat)
    (fs : gmap string node) (e : exn) :
  git_ls_files E = NotStarted e →
  (∀ returncode, e ≠ CalledProcessError returncode) →
  get_codebase_summary E sched fs
  = (Raise e, fs, [Print "Gathering codebase information..."; Spawn ["git"; "ls-files"]]).
Proof.
  intros Hgit He.
  unfold get_codebase_summary, check_output_git_ls_files.
  unfold_M. rewrite Hgit. simpl. destruct e; try done. by destruct (He returncode).
Qed.

Lemma assembled_prompt_listed (E : Env) (sched : list nat) (fs : gmap string node)
    (stdout : string) :
  git_ls_files E = Exited 0 stdout →
  utf8_valid stdout = true →
  assembled_prompt E sched fs
  = Ret (full_prompt (sections (sort_by_path (read_all E fs (splitlines stdout))))).
Proof.
  intros Hgit Hvalid. unfold assembled_prompt.
  destruct (get_codebase_summary_listed E sched fs stdout Hgit Hvalid) as (evs & -> & _).
  done.
Qed.

(** A listed file has its section in the prompt. *)
Lemma assembled_prompt_section (E : Env) (sched : list nat) (fs : gmap string node)
    (stdout file_path : string) :
  git_ls_files E = Exited 0 stdout →
  utf8_valid stdout = true →
  file_path ∈ splitlines stdout →
  ∃ before after,
    assembled_prompt E sched fs
    = Ret (before
           +:+ ("--- " +:+ file_path +:+ " ---" +:+ nl
                +:+ content_of E fs file_path +:+ nl +:+ nl)
           +:+ after).
Proof.
  intros Hgit Hvalid Hin.
  rewrite (assembled_prompt_listed E sched fs stdout) by done.
  assert ((file_path, content_of E fs file_path)
          ∈ sort_by_path (read_all E fs (splitlines stdout))) as Hres.
  { rewrite sort_by_path_Permutation. unfold read_all.
    apply list_elem_of_fmap. by exists file_path. }
  apply list_elem_of_split in Hres as (l1 & l2 & ->).
  exists (full_prompt (sections l1)), (sections l2).
  rewrite sections_app. simpl. unfold full_prompt.
  by rewrite !append_assoc.
Qed.

(** ** The Generation Client *)

Lemma call_geminiai_no_key (E : Env) (prompt : string) (fs : gmap string node) :
  truthy (GEMINI_API_KEY E) = false →
  call_geminiai E prompt fs
  = (Ret None, fs,
     [Print ("Calling Gemini AI (" +:+ AI_MODEL +:+ ") to generate README...");
      Print "Error: GEMINI_API_KEY environment variable not set"]).
Proof. intros Hkey. unfold call_geminiai. unfold_M. by rewrite Hkey. Qed.

Lemma call_geminiai_with_key (E : Env) (prompt : string) (fs : gmap string node)
    (api_key : string) :
  GEMINI_API_KEY E = Some api_key →
  api_key ≠ "" →
  call_geminiai E prompt fs
  = match generate_content E api_key AI_MODEL prompt with
    | Response (Ret text) =>
        (Ret text, fs,
         [Print ("Calling Gemini AI (" +:+ AI_MODEL +:+ ") to generate README...");
          Generate api_key AI_MODEL prompt;
          Print "Successfully generated README content"])
    | Response (Raise e) =>
        (Ret None, fs,
         [Print ("Calling Gemini AI (" +:+ AI_MODEL +:+ ") to generate README...");
          Generate api_key AI_MODEL prompt;
          Print "Successfully generated README content";
          Print ("Error calling Gemini AI: " +:+ str_exn E e)])
    | CallRaised e =>
        (Ret None, fs,
         [Print ("Calling Gemini AI (" +:+ AI_MODEL +:+ ") to generate README...");
          Generate api_key AI_MODEL prompt;
          Print ("Error calling Gemini AI: " +:+ str_exn E e)])
    end.
Proof.
  intros Hkey Hne. unfold call_geminiai, models_generate_content, response_text.
  unfold_M. rewrite Hkey. destruct api_key as [|a api_key]; [done|]. simpl.
  by destruct (generate_content E (String a api_key) AI_MODEL prompt) as [e|[text|e]].
Qed.

(** ** The backup as a function of the README *)

Lemma backup_copy_completes (E : Env) (fs : gmap string node) (data : string) (w : bool) :
  fs !! "README.md" = Some (File data true w) →
  utf8_valid data = true →
  (fs !! "README.md.bak" = None
   ∨ ∃ old r, fs !! "README.md.bak" = Some (File old r true)) →
  ∃ r,
    backup_existing_readme E fs
    = (Ret true,
       <["README.md.bak" := File (through_text_mode E data) r true]> fs,
       [Open "README.md" ModeR; Open "README.md.bak" ModeW;
        Print "Created backup at README.md.bak"])
    ∧ r = match fs !! "README.md.bak" with Some (File _ r _) => r | _ => true end.
Proof.
  intros Hsrc Hvalid Hdst.
  unfold backup_existing_readme, backup_copy, path_exists, open_r, open_w, f_read, f_write.
  unfold_M. rewrite Hsrc, bool_decide_eq_true_2 by done. simpl. rewrite Hsrc. simpl.
  destruct Hdst as [Hdst|(old & r & Hdst)]; rewrite Hdst; simpl;
    rewrite lookup_insert_ne, Hsrc, Hvalid by done; simpl;
    rewrite lookup_insert_eq; simpl; rewrite insert_insert_eq;
    eexists; (split; [reflexivity|done]).
Qed.

(** The copy completes exactly when the README is a readable file of valid
    UTF-8 and the backup path is free or a writable file; otherwise one of its
    steps raises. *)
Lemma backup_copy_raises (E : Env) (fs : gmap string node) :
  (∃ data w,
     fs !! "README.md" = Some (File data true w)
     ∧ utf8_valid data = true
     ∧ (fs !! "README.md.bak" = None
        ∨ ∃ old r, fs !! "README.md.bak" = Some (File old r true)))
  ∨ ∃ e fs1 evs1, backup_copy E fs = (Raise e, fs1, evs1).
Proof.
  unfold backup_copy, open_r, open_w, f_read, f_write. unfold_M.
  destruct (fs !! "README.md") as [[data [] w|]|] eqn:Hsrc; simpl;
    [|right; by eexists _, _, _..].
  destruct (fs !! "README.md.bak") as [[old r []|]|] eqn:Hdst; simpl;
    rewrite ?lookup_insert_ne, ?Hsrc by done;
    [| right; by eexists _, _, _ | right; by eexists _, _, _ |];
    (destruct (utf8_valid data) eqn:Hvalid; simpl; [|right; by eexists _, _, _]);
    left; exists data, w; naive_solver.
Qed.

(** A backup step that returns [True] for a README that exists has written
    the README, as text mode renders it, to the backup. *)
Lemma backup_success_content (E : Env) (fs fs1 : gmap string node) (evs : list event) :
  is_Some (fs !! "README.md") →
  backup_existing_readme E fs = (Ret true, fs1, evs) →
  ∃ data w r,
    fs !! "README.md" = Some (File data true w)
    ∧ fs1 !! "README.md.bak" = Some (File (through_text_mode E data) r true).
Proof.
  intros Hthere Hrun.
  destruct (backup_copy_raises E fs)
    as [(data & w & Hsrc & Hvalid & Hdst)|(e & fs2 & evs2 & Hcopy)].
  - destruct (backup_copy_completes E fs data w Hsrc Hvalid Hdst) as (r & Hrun' & _).
    rewrite Hrun' in Hrun. injection Hrun as <- _.
    exists data, w, r. split; [done|]. by rewrite lookup_insert_eq.
  - exfalso. revert Hrun. unfold backup_existing_readme, path_exists. unfold_M.
    rewrite bool_decide_eq_true_2 by done. simpl. by rewrite Hcopy.
Qed.

(** Text without a carriage return goes through text mode unchanged where the
    line separator is a line feed. *)
Lemma lf_text_through_text_mode (E : Env) (data : string) :
  linesep E = nl → no_cr data = true → through_text_mode E data = data.
Proof.
  intros Hsep. unfold through_text_mode, universal_newlines. rewrite Hsep.
  induction data as [|a data IH]; [done|]. simpl.
  destruct (decide (a = CR)); [done|]. intros Hdata.
  destruct (decide (a = LF)) as [->|Hlf]; simpl.
  - rewrite IH by done. done.
  - destruct (decide (a = LF)); [done|]. by rewrite IH.
Qed.

(** Where the line separator is a line feed and the README holds no carriage
    return, the backup is the README byte for byte. *)
Lemma backup_exact_for_lf_text (E : Env) (fs : gmap string node) (data : string) (w : bool) :
  linesep E = nl →
  no_cr data = true →
  fs !! "README.md" = Some (File data true w) →
  utf8_valid data = true →
  (fs !! "README.md.bak" = None
   ∨ ∃ old r, fs !! "README.md.bak" = Some (File old r true)) →
  ∃ fs1 evs r,
    backup_existing_readme E fs = (Ret true, fs1, evs)
    ∧ fs1 !! "README.md.bak" = Some (File data r true).
Proof.
  intros Hsep Hcr Hsrc Hvalid Hdst.
  destruct (backup_copy_completes E fs data w Hsrc Hvalid Hdst) as (r & Hrun & _).
  eexists _, _, r. split; [exact Hrun|].
  by rewrite lookup_insert_eq, lf_text_through_text_mode.
Qed.

(** ** What each step of the script may do *)

(** The Backup step prints, opens [README.md] to read and [README.md.bak] to
    write, and touches no other path than the backup. *)
Lemma obeys_backup_copy (E : Env) (P : event → Prop) (keep : string → Prop) :
  (∀ line, P (Print line)) →
  P (Open "README.md" ModeR) →
  P (Open "README.md.bak" ModeW) →
  ¬ keep "README.md.bak" →
  obeys P keep (backup_copy E) (λ _, True).
Proof.
  intros P_print P_src P_dst keep_dst. unfold backup_copy.
  eapply obeys_bind; [by apply obeys_open_r|]. intros src _.
  eapply obeys_bind; [by apply obeys_open_w|]. intros dst ->.
  eapply obeys_bind; [apply obeys_f_read|]. intros text _.
  eapply obeys_bind; [by apply obeys_f_write|]. intros _ _.
  eapply obeys_bind; [by apply obeys_print|]. intros _ _.
  by apply obeys_ret.
Qed.

Lemma obeys_backup_step (E : Env) (P : event → Prop) (keep : string → Prop) :
  (∀ line, P (Print line)) →
  P (Open "README.md" ModeR) →
  P (Open "README.md.bak" ModeW) →
  ¬ keep "README.md.bak" →
  obeys P keep (backup_existing_readme E) (λ _, True).
Proof.
  intros P_print P_src P_dst keep_dst. unfold backup_existing_readme.
  eapply obeys_bind; [apply obeys_path_exists|]. intros [] _; [|by apply obeys_ret].
  apply obeys_try; [by apply obeys_backup_copy|].
  intros e. eapply obeys_bind; [by apply obeys_print|]. intros _ _.
  by apply obeys_ret.
Qed.

Section Steps.

Context (E : Env) (P : event → Prop) (keep : string → Prop).

Hypothesis P_reads : ∀ ev, reads_only ev → P ev.
Hypothesis P_spawn : ∀ argv, P (Spawn argv).

Lemma P_print (line : string) : P (Print line).
Proof. by apply P_reads. Qed.

Lemma P_open_r (path : string) : P (Open path ModeR).
Proof. by apply P_reads. Qed.

Lemma obeys_executor_map_reads (sched : list nat) (files : list string) :
  obeys P keep (executor_map sched (read_file_content E) files) (λ _, True).
Proof.
  intros fs.
  destruct (executor_map_returned reads_only (read_file_content E) files fs)
    with (sched := sched) as (results & evs & Hmap & Hevs & _).
  { intros x. destruct (read_file_content_returns E x fs) as (c & evs & ? & ?).
    by exists (x, c), evs. }
  exists (Ret results), fs, evs. split; [done|].
  split; [by eapply Forall_impl|]. by split.
Qed.

Lemma obeys_check_output_git_ls_files :
  obeys P keep (check_output_git_ls_files E) (λ _, True).
Proof.
  unfold check_output_git_ls_files.
  eapply obeys_bind; [by apply obeys_emit|]. intros _ _.
  destruct (git_ls_files E) as [e|returncode stdout]; [apply obeys_raise|].
  destruct (decide (returncode = 0%Z)); [by apply obeys_ret|apply obeys_raise].
Qed.

Lemma obeys_get_codebase_summary (sched : list nat) :
  obeys P keep (get_codebase_summary E sched) (λ _, True).
Proof.
  unfold get_codebase_summary.
  eapply obeys_bind; [apply obeys_print, P_print|]. intros _ _.
  eapply obeys_bind with (Q := λ _, True).
  - apply obeys_try.
    + eapply obeys_bind; [apply obeys_check_output_git_ls_files|]. intros stdout _.
      eapply obeys_bind; [apply obeys_decode_utf8|]. intros text _.
      by apply obeys_ret.
    + intros e. destruct e; try apply obeys_raise.
      eapply obeys_bind; [apply obeys_print, P_print|]. intros _ _.
      by apply obeys_ret.
  - intros [message|files] _; [by apply obeys_ret|].
    eapply obeys_bind; [apply obeys_executor_map_reads|]. intros results _.
    eapply obeys_bind; [apply obeys_print, P_print|]. intros _ _.
    by apply obeys_ret.
Qed.

Hypothesis P_backup : P (Open "README.md.bak" ModeW).
Hypothesis keep_backup : ¬ keep "README.md.bak".

Lemma obeys_backup_existing_readme :
  obeys P keep (backup_existing_readme E) (λ _, True).
Proof.
  apply obeys_backup_step; [apply P_print|apply P_open_r|done..].
Qed.

(** A run in which the Generation Client gives no text: the write step is
    never reached. *)
Lemma obeys_main_without_text (sched : list nat) :
  (∀ prompt, obeys P keep (call_geminiai E prompt) (λ text, truthy text = false)) →
  obeys P keep (main E sched) (λ _, True).
Proof.
  intros Hcall. unfold main.
  eapply obeys_bind; [apply obeys_print, P_print|]. intros _ _.
  eapply obeys_bind; [apply obeys_backup_existing_readme|]. intros backed_up _.
  destruct backed_up; simpl; [|apply obeys_print, P_print].
  eapply obeys_bind; [apply obeys_get_codebase_summary|]. intros codebase_context _.
  eapply obeys_bind; [apply Hcall|]. intros text Htext. simpl in Htext.
  rewrite Htext. apply obeys_print, P_print.
Qed.

End Steps.

(** ** Runs that stop early and runs in which git fails *)

Lemma main_aborts (E : Env) (sched : list nat) (fs fs1 : gmap string node)
    (evs1 : list event) :
  backup_existing_readme E fs = (Ret false, fs1, evs1) →
  main E sched fs
  = (Ret tt, fs1,
     Print "Starting README generation process"
       :: evs1 ++ [Print "Error: Aborting due to backup failure"]).
Proof.
  intros Hbackup. unfold main.
  apply (bind_Ret _ _ fs tt fs [Print "Starting README generation process"]); [done|].
  by apply bind_Ret with false fs1.
Qed.

(** After a backup step that succeeded, a [git ls-files] that exits with a
    status other than zero does not stop the run: with a credential, the text
    of the [except] clause is sent to the endpoint as the code base. *)
Lemma main_after_git_failure (E : Env) (sched : list nat) (fs fs0 : gmap string node)
    (evs0 : list event) (returncode : Z) (stdout api_key : string) :
  git_ls_files E = Exited returncode stdout →
  returncode ≠ 0%Z →
  GEMINI_API_KEY E = Some api_key →
  api_key ≠ "" →
  backup_existing_readme E fs = (Ret true, fs0, evs0) →
  ∃ r fs1 evs,
    main E sched fs = (r, fs1, evs)
    ∧ Generate api_key AI_MODEL (full_prompt "Error: Failed to list git files") ∈ evs.
Proof.
  intros Hgit Hcode Hkey Hne Hbackup.
  unfold main. unfold_M. simpl. rewrite Hbackup. simpl.
  rewrite (get_codebase_summary_git_failed E sched fs0 returncode stdout Hgit Hcode).
  rewrite (call_geminiai_with_key E _ fs0 api_key Hkey Hne).
  destruct (generate_content E api_key AI_MODEL _) as [e|[text|e]].
  - eexists _, _, _. split; [reflexivity|]. in_events.
  - destruct (truthy text).
    + destruct (open_w "README.md" fs0) as [[[f|e] fs1] evs1].
      * destruct (f_write (linesep E) f (default "" text) fs1) as [[[[]|e] fs2] evs2];
          eexists _, _, _; (split; [reflexivity|]); in_events.
      * eexists _, _, _. split; [reflexivity|]. in_events.
    + eexists _, _, _. split; [reflexivity|]. in_events.
  - eexists _, _, _. split; [reflexivity|]. in_events.
Qed.

(** A [git] that cannot be started raises out of [main]. *)
Lemma main_git_not_started (E : Env) (sched : list nat) (fs fs0 : gmap string node)
    (evs0 : list event) (e : exn) :
  git_ls_files E = NotStarted e →
  (∀ returncode, e ≠ CalledProcessError returncode) →
  backup_existing_readme E fs = (Ret true, fs0, evs0) →
  ∃ evs, main E sched fs = (Raise e, fs0, evs).
Proof.
  intros Hgit He Hbackup.
  unfold main. unfold_M. simpl. rewrite Hbackup. simpl.
  rewrite (get_codebase_summary_not_started E sched fs0 e Hgit He).
  by eexists.
Qed.

(** ** A run, step by step *)

Lemma requests_app (evs1 evs2 : list event) :
  requests (evs1 ++ evs2) = requests evs1 ++ requests evs2.
Proof. unfold requests. apply omap_app. Qed.

Lemma requests_cons (ev : event) (evs : list event) :
  requests (ev :: evs)
  = match ev with
    | Generate api_key model contents => (api_key, model, contents) :: requests evs
    | _ => requests evs
    end.
Proof. by destruct ev. Qed.

Lemma requests_none (P : event → Prop) (evs : list event) :
  (∀ ev, P ev → ¬ is_generate ev) → Forall P evs → requests evs = [].
Proof.
  intros HP. induction 1 as [|ev evs Hev _ IH]; [done|].
  rewrite requests_cons, IH.
  destruct ev; try done. destruct (HP _ Hev). by eexists _, _, _.
Qed.

Lemma backing_up_no_request (ev : event) : backing_up ev → ¬ is_generate ev.
Proof. by intros Hev (? & ? & ? & ->). Qed.

Lemma gathering_no_request (ev : event) : gathering ev → ¬ is_generate ev.
Proof. intros [Hev|Hev] (? & ? & ? & ->); done. Qed.

Lemma writing_no_request (ev : event) : writing ev → ¬ is_generate ev.
Proof. by intros Hev (? & ? & ? & ->). Qed.

(** The backup step returns, whatever it finds. *)
Lemma backup_existing_readme_returns (E : Env) (fs : gmap string node) :
  ∃ ok fs1 evs,
    backup_existing_readme E fs = (Ret ok, fs1, evs)
    ∧ Forall backing_up evs
    ∧ (∀ path, path ≠ "README.md.bak" → fs1 !! path = fs !! path).
Proof.
  destruct (obeys_backup_step E backing_up (λ path, path ≠ "README.md.bak"))
    with (fs := fs) as (r & fs1 & evs & Hrun & Hevs & Hkeep & _);
    [done..|by intros H|].
  assert (∃ ok, r = Ret ok) as [ok ->]; [|by exists ok, fs1, evs].
  revert Hrun. unfold backup_existing_readme, path_exists. unfold_M.
  destruct (bool_decide (is_Some (fs !! "README.md"))); simpl.
  - destruct (backup_copy E fs) as [[[ok|e] fs2] evs2]; simpl;
      intros [= <- _ _]; by eexists.
  - intros [= <- _ _]. by eexists.
Qed.

(** Each event of a list that is known is an event of the enumeration. *)
Ltac all_gathering :=
  repeat first
    [ apply Forall_nil_2
    | apply Forall_cons_2; [first [by left | by right]|] ].

(** The File Enumerator and the reads leave the file system as it was, and
    an exception leaves them only when git cannot be started or when its
    output is not UTF-8. *)
Lemma get_codebase_summary_runs (E : Env) (sched : list nat) (fs : gmap string node) :
  ∃ r evs,
    get_codebase_summary E sched fs = (r, fs, evs)
    ∧ Forall gathering evs
    ∧ ∀ e, r = Raise e →
        (git_ls_files E = NotStarted e ∧ ∀ returncode, e ≠ CalledProcessError returncode)
        ∨ (∃ stdout,
             git_ls_files E = Exited 0 stdout
             ∧ utf8_valid stdout = false ∧ e = UnicodeDecodeError).
Proof.
  destruct (git_ls_files E) as [e|returncode stdout] eqn:Hgit.
  - assert ((∃ returncode, e = CalledProcessError returncode)
            ∨ ∀ returncode, e ≠ CalledProcessError returncode) as [[returncode ->]|He].
    { destruct e; eauto. }
    + eexists _, _. split; [|split].
      * unfold get_codebase_summary, check_output_git_ls_files. unfold_M.
        rewrite Hgit. reflexivity.
      * all_gathering.
      * done.
    + rewrite (get_codebase_summary_not_started E sched fs e Hgit He).
      eexists _, _. split; [done|]. split.
      * all_gathering.
      * intros e' [= <-]. by left.
  - destruct (decide (returncode = 0%Z)) as [->|Hcode].
    + destruct (utf8_valid stdout) eqn:Hvalid.
      * destruct (get_codebase_summary_listed E sched fs stdout Hgit Hvalid)
          as (evs & Hrun & Hevs).
        eexists _, _. split; [exact Hrun|]. by split.
      * eexists _, _. split; [|split].
        -- unfold get_codebase_summary, check_output_git_ls_files, decode_utf8.
           unfold_M. rewrite Hgit. simpl. rewrite Hvalid. reflexivity.
        -- all_gathering.
        -- intros e [= <-]. right. by exists stdout.
    + rewrite (get_codebase_summary_git_failed E sched fs returncode stdout Hgit Hcode).
      eexists _, _. split; [done|]. split; [|done].
      all_gathering.
Qed.

(** The Generation Client returns, leaves the file system as it was, and
    sends one request when there is a key and none otherwise. *)
Lemma call_geminiai_runs (E : Env) (prompt : string) (fs : gmap string node) :
  ∃ text evs,
    call_geminiai E prompt fs = (Ret text, fs, evs)
    ∧ Forall calling evs
    ∧ ((truthy (GEMINI_API_KEY E) = false ∧ text = None ∧ requests evs = [])
       ∨ (∃ api_key,
            GEMINI_API_KEY E = Some api_key
            ∧ api_key ≠ ""
            ∧ requests evs = [(api_key, AI_MODEL, prompt)]
            ∧ (truthy text = true →
               generate_content E api_key AI_MODEL prompt = Response (Ret text)))).
Proof.
  destruct (truthy (GEMINI_API_KEY E)) eqn:Hkey.
  - destruct (GEMINI_API_KEY E) as [api_key|] eqn:Hvar; [|done].
    assert (api_key ≠ "") as Hne by (by intros ->).
    rewrite (call_geminiai_with_key E prompt fs api_key Hvar Hne).
    destruct (generate_content E api_key AI_MODEL prompt) as [e|[text|e]] eqn:Hgen;
      eexists _, _; (split; [reflexivity|]); (split; [by repeat constructor|]);
      right; exists api_key; (split; [done|]); (split; [done|]); by split.
  - rewrite (call_geminiai_no_key E prompt fs Hkey).
    eexists _, _. split; [reflexivity|]. split; [by repeat constructor|].
    by left.
Qed.

(** The write step returns: it replaces the content of [README.md] by the
    text, or, when the file cannot be opened for writing, reports the error
    and leaves the file system as it was. *)
Lemma write_readme_runs (E : Env) (text : string) (fs : gmap string node) :
  ∃ fs1 evs,
    write_readme E text fs = (Ret tt, fs1, evs)
    ∧ Forall writing evs
    ∧ (∀ path, path ≠ "README.md" → fs1 !! path = fs !! path)
    ∧ match fs !! "README.md" with
      | None =>
          fs1 !! "README.md"
          = Some (File (translate_newlines (linesep E) text) true true)
          ∧ evs = [Open "README.md" ModeW;
                   Print "README.md has been successfully updated"]
      | Some (File _ r true) =>
          fs1 !! "README.md"
          = Some (File (translate_newlines (linesep E) text) r true)
          ∧ evs = [Open "README.md" ModeW;
                   Print "README.md has been successfully updated"]
      | Some (File _ _ false) =>
          fs1 = fs
          ∧ evs = [Open "README.md" ModeW;
                   Print ("Error: Failed to write README.md: "
                          +:+ str_exn E (PermissionError "README.md"))]
      | Some Dir =>
          fs1 = fs
          ∧ evs = [Open "README.md" ModeW;
                   Print ("Error: Failed to write README.md: "
                          +:+ str_exn E (IsADirectoryError "README.md"))]
      end.
Proof.
  unfold write_readme, open_w, f_write. unfold_M.
  destruct (fs !! "README.md") as [[data r []|]|] eqn:Hnode; simpl;
    rewrite ?lookup_insert_eq; simpl;
    eexists _, _; (split; [reflexivity|]); (split; [by repeat constructor|]);
    (split; [|by rewrite ?lookup_insert_eq]);
    intros path Hpath; by rewrite ?lookup_insert_ne.
Qed.

(** A run, step by step. *)
Lemma main_steps (E : Env) (sched : list nat) (fs : gmap string node) :
  main E sched fs
  = match backup_existing_readme E fs with
    | (Ret false, fs0, b) =>
        (Ret tt, fs0,
         Print "Starting README generation process"
           :: b ++ [Print "Error: Aborting due to backup failure"])
    | (Ret true, fs0, b) =>
        match get_codebase_summary E sched fs0 with
        | (Ret codebase_context, fs1, g) =>
            match call_geminiai E (full_prompt codebase_context) fs1 with
            | (Ret updated_readme, fs2, c) =>
                if truthy updated_readme then
                  match write_readme E (default "" updated_readme) fs2 with
                  | (r, fs3, w) =>
                      (r, fs3,
                       Print "Starting README generation process" :: b ++ g ++ c ++ w)
                  end
                else
                  (Ret tt, fs2,
                   Print "Starting README generation process"
                     :: b ++ g ++ c
                     ++ [Print "Error: Failed to generate updated README content"])
            | (Raise e, fs2, c) =>
                (Raise e, fs2, Print "Starting README generation process" :: b ++ g ++ c)
            end
        | (Raise e, fs1, g) =>
            (Raise e, fs1, Print "Starting README generation process" :: b ++ g)
        end
    | (Raise e, fs0, b) => (Raise e, fs0, Print "Starting README generation process" :: b)
    end.
Proof.
  unfold main, write_readme. unfold_M. simpl.
  destruct (backup_existing_readme E fs) as [[[[]|e] fs0] b]; simpl; [|done..].
  destruct (get_codebase_summary E sched fs0) as [[[codebase_context|e] fs1] g];
    simpl; [|done].
  destruct (call_geminiai E (full_prompt codebase_context) fs1)
    as [[[updated_readme|e] fs2] c]; simpl; [|done].
  destruct (truthy updated_readme); simpl; [|done].
  destruct (open_w "README.md" fs2) as [[[f|e] fs3] w1]; simpl.
  - destruct (f_write (linesep E) f (default "" updated_readme) fs3)
      as [[[[]|e] fs4] w2]; simpl; by rewrite <-?app_assoc.
  - by rewrite <-?app_assoc.
Qed.

(** The requests of a run are its [Generate] events. *)
Lemma elem_of_requests (evs : list event) (api_key model contents : string) :
  (api_key, model, contents) ∈ requests evs ↔ Generate api_key model contents ∈ evs.
Proof.
  unfold requests. rewrite list_elem_of_omap. split.
  - intros (ev & Hin & Hev). by destruct ev; simplify_eq.
  - intros Hin. by exists (Generate api_key model contents).
Qed.

(** No step but the write step opens [README.md] for writing. *)
Lemma backing_up_no_write (ev : event) : backing_up ev → ev ≠ Open "README.md" ModeW.
Proof. by intros Hev ->. Qed.

Lemma gathering_no_write (ev : event) : gathering ev → ev ≠ Open "README.md" ModeW.
Proof. by intros [Hev|Hev] ->. Qed.

Lemma calling_no_write (ev : event) : calling ev → ev ≠ Open "README.md" ModeW.
Proof. by intros Hev ->. Qed.

(** ** A run that stops at the backup step *)

(** A run whose backup copy raises stops after the backup step.  The file
    system is as it was, unless the exception came from reading a [README.md]
    that is not valid UTF-8: by then the backup file had been opened for
    writing, so that it is left empty. *)
Lemma main_after_backup_failure (E : Env) (sched : list nat) (fs fs1 : gmap string node)
    (e : exn) (evs1 : list event) :
  is_Some (fs !! "README.md") →
  backup_copy E fs = (Raise e, fs1, evs1) →
  backup_existing_readme E fs
  = (Ret false, fs1,
     evs1 ++ [Print ("Error: Failed to create README backup: " +:+ str_exn E e)])
  ∧ main E sched fs
    = (Ret tt, fs1,
       Print "Starting README generation process"
         :: (evs1 ++ [Print ("Error: Failed to create README backup: " +:+ str_exn E e)])
         ++ [Print "Error: Aborting due to backup failure"])
  ∧ Forall backing_up evs1
  ∧ (fs1 = fs
     ∨ e = UnicodeDecodeError
       ∧ (∃ data w,
            fs !! "README.md" = Some (File data true w) ∧ utf8_valid data = false)
       ∧ fs1 = <["README.md.bak" :=
                   File "" match fs !! "README.md.bak" with
                           | Some (File _ r _) => r
                           | _ => true
                           end true]> fs).
Proof.
  intros Hthere Hcopy.
  assert (backup_existing_readme E fs
          = (Ret false, fs1,
             evs1 ++ [Print ("Error: Failed to create README backup: " +:+ str_exn E e)]))
    as Hbackup.
  { unfold backup_existing_readme.
    eapply (bind_Ret _ _ fs true fs []).
    - unfold path_exists. by rewrite bool_decide_eq_true_2.
    - simpl. by eapply try_Raise. }
  split; [done|]. split; [by apply main_aborts|].
  revert Hcopy. unfold backup_copy, open_r, open_w, f_read, f_write. unfold_M.
  destruct (fs !! "README.md") as [[data [] w|]|] eqn:Hsrc; simpl;
    [|intros [= <- <- <-]; split; [by repeat constructor|by left]..].
  destruct (fs !! "README.md.bak") as [[old r []|]|] eqn:Hdst; simpl;
    rewrite ?lookup_insert_ne, ?Hsrc by done; simpl;
    try (intros [= <- <- <-]; split; [by repeat constructor|by left]);
    (destruct (utf8_valid data) eqn:Hvalid; simpl;
     [rewrite lookup_insert_eq; simpl; done|]);
    intros [= <- <- <-]; (split; [by repeat constructor|]); right;
    (split; [done|]); (split; [by exists data, w|done]).
Qed.

(** * The claims *)

(** C1, where the code departs from the claim.  Outside a repository
    [git ls-files] exits with status 128: the run goes on, sends the
    instruction text followed by the error text to the endpoint and replaces
    [README.md] by the answer.  Where [git] is not installed the exception
    leaves [main]. *)
Theorem git_failure_does_not_abort :
  (∃ fs1 evs,
     main env_not_a_repository [] fs_sample = (Ret tt, fs1, evs)
     ∧ Generate "secret" AI_MODEL (full_prompt "Error: Failed to list git files") ∈ evs
     ∧ fs1 !! "README.md" = Some (File "# Generated" true true))
  ∧ (∃ fs1 evs,
       main env_no_git [] fs_sample = (Raise (FileNotFoundError "git"), fs1, evs)).
Proof.
  split.
  - eexists _, _. split; [by vm_compute|]. split; [|by vm_compute].
    in_events.
  - eexists _, _. by vm_compute.
Qed.

(** C2. Two runs whose listings hold the same paths, in any order, and whose
    reads return the same content for each listed path assemble the same
    prompt, whatever the order in which the reads of either run finish; the
    sections of that prompt are those of the results of the reads, ordered by
    path. *)
Theorem prompt_deterministic (E1 E2 : Env) (sched1 sched2 : list nat)
    (fs1 fs2 : gmap string node) (stdout1 stdout2 : string) :
  git_ls_files E1 = Exited 0 stdout1 →
  git_ls_files E2 = Exited 0 stdout2 →
  utf8_valid stdout1 = true →
  utf8_valid stdout2 = true →
  splitlines stdout1 ≡ₚ splitlines stdout2 →
  (∀ file_path, file_path ∈ splitlines stdout1 →
     content_of E1 fs1 file_path = content_of E2 fs2 file_path) →
  ∃ results,
    assembled_prompt E1 sched1 fs1 = Ret (full_prompt (sections results))
    ∧ assembled_prompt E2 sched2 fs2 = Ret (full_prompt (sections results))
    ∧ results ≡ₚ read_all E1 fs1 (splitlines stdout1)
    ∧ Sorted String.le results.*1.
Proof.
  intros Hgit1 Hgit2 Hvalid1 Hvalid2 Hperm Hsame.
  exists (sort_by_path (read_all E1 fs1 (splitlines stdout1))).
  split; [by apply assembled_prompt_listed|].
  split.
  - rewrite (assembled_prompt_listed E2 sched2 fs2 stdout2) by done.
    do 3 f_equal. symmetry.
    rewrite (read_all_ext E1 E2 fs1 fs2) by done.
    apply sort_by_path_order_irrelevant; [by apply read_all_Permutation|].
    intros x y. apply read_all_functional.
  - split; [apply sort_by_path_Permutation|].
    apply (Sorted_fmap fst by_path); [done|]. apply sort_by_path_Sorted.
Qed.

Lemma prompt_deterministic_witness :
  ∃ results,
    assembled_prompt (posix git_sample None (Response (Ret None))) [1; 0] fs_sample
    = Ret (full_prompt (sections results))
    ∧ assembled_prompt (posix git_sample_reversed (Some "secret") (Response (Ret None))) []
        fs_sample_no_readme
      = Ret (full_prompt (sections results))
    ∧ results
      ≡ₚ read_all (posix git_sample None (Response (Ret None))) fs_sample
           (splitlines ("a.txt" +:+ nl +:+ "b.bin" +:+ nl))
    ∧ Sorted String.le results.*1.
Proof.
  apply (prompt_deterministic
           (posix git_sample None (Response (Ret None)))
           (posix git_sample_reversed (Some "secret") (Response (Ret None)))
           [1; 0] [] fs_sample fs_sample_no_readme
           ("a.txt" +:+ nl +:+ "b.bin" +:+ nl) ("b.bin" +:+ nl +:+ "a.txt" +:+ nl)).
  - reflexivity.
  - reflexivity.
  - reflexivity.
  - reflexivity.
  - rewrite splitlines_sample, splitlines_sample_reversed. apply Permutation_swap.
  - intros file_path. rewrite splitlines_sample.
    intros [->|[->|[]%elem_of_nil]%elem_of_cons]%elem_of_cons; reflexivity.
Defined.

(** C3, where the code departs from the claim.  On a POSIX machine, for a
    [README.md] whose lines end in CR LF, the backup step succeeds and the
    backup holds the text with LF line ends: the two files differ, so the
    backup is not a byte copy. *)
Theorem backup_rewrites_line_ends :
  ∃ fs1 evs,
    backup_existing_readme (posix (Exited 0 "") None (Response (Ret None))) fs_crlf
    = (Ret true, fs1, evs)
    ∧ fs_crlf !! "README.md" = Some (File readme_crlf true true)
    ∧ fs1 !! "README.md.bak" = Some (File readme_lf true true)
    ∧ readme_lf ≠ readme_crlf.
Proof.
  destruct (backup_copy_completes (posix (Exited 0 "") None (Response (Ret None)))
              fs_crlf readme_crlf true) as (r & Hrun & ->);
    [reflexivity|reflexivity|by left|].
  eexists _, _. split; [exact Hrun|]. split; [reflexivity|].
  split; [|done]. by rewrite lookup_insert_eq.
Qed.



(** C5. When the credential variable is absent, the Generation Client
    returns [None] and sends nothing to the endpoint, whatever the prompt, and
    a whole run sends nothing to the endpoint and leaves [README.md] as it
    was. *)
Theorem missing_credential (E : Env) (sched : list nat) (fs : gmap string node) :
  GEMINI_API_KEY E = None →
  (∀ prompt fs0, ∃ evs,
      call_geminiai E prompt fs0 = (Ret None, fs0, evs)
      ∧ Forall (λ ev, ¬ is_generate ev) evs)
  ∧ ∃ r fs1 evs,
      main E sched fs = (r, fs1, evs)
      ∧ Forall (λ ev, ¬ is_generate ev) evs
      ∧ fs1 !! "README.md" = fs !! "README.md".
Proof.
  intros Hkey.
  assert (∀ prompt fs0, ∃ evs,
            call_geminiai E prompt fs0 = (Ret None, fs0, evs)
            ∧ Forall (λ ev, ¬ is_generate ev) evs) as Hcall.
  { intros prompt fs0. eexists. split.
    - apply call_geminiai_no_key. by rewrite Hkey.
    - repeat constructor; by intros (? & ? & ? & ?). }
  split; [done|].
  destruct (obeys_main_without_text E (λ ev, ¬ is_generate ev) (λ p, p = "README.md"))
    with (sched := sched) (fs := fs) as (r & fs1 & evs & Hrun & Hevs & Hkeep & _).
  - intros [] Hev (? & ? & ? & ?); done.
  - intros argv (? & ? & ? & ?); done.
  - intros (? & ? & ? & ?); done.
  - done.
  - intros prompt fs0. destruct (Hcall prompt fs0) as (evs & Hc & Hevs).
    exists (Ret None), fs0, evs. split; [done|]. split; [done|]. split; [done|].
    by intros ? [= <-].
  - exists r, fs1, evs. split; [done|]. split; [done|]. by apply Hkeep.
Qed.

Lemma missing_credential_witness :
  GEMINI_API_KEY (posix git_sample None (Response (Ret (Some "# New")))) = None
  ∧ ∃ r fs1 evs,
      main (posix git_sample None (Response (Ret (Some "# New")))) [1; 0] fs_sample
      = (r, fs1, evs)
      ∧ Forall (λ ev, ¬ is_generate ev) evs
      ∧ fs1 !! "README.md" = fs_sample !! "README.md".
Proof.
  split; [reflexivity|].
  apply (missing_credential (posix git_sample None (Response (Ret (Some "# New"))))
           [1; 0] fs_sample).
  reflexivity.
Defined.

(** C6. In every run in which the remote call fails, that is in which a
    request is sent and the call raises or answers with a text that cannot be
    read, is absent or is empty, the write step is not reached: the run
    returns, its last line reports that no content was generated, [README.md]
    is never opened for writing and it is left as it was.  Only the request of
    the run itself has to fail; the endpoint may answer any other request. *)
Theorem generation_failure_keeps_readme (E : Env) (sched : list nat)
    (fs fs1 : gmap string node) (r : outcome unit) (evs : list event)
    (api_key model contents : string) :
  main E sched fs = (r, fs1, evs) →
  Generate api_key model contents ∈ evs →
  failed (generate_content E api_key model contents) →
  r = Ret tt
  ∧ last evs = Some (Print "Error: Failed to generate updated README content")
  ∧ (Open "README.md" ModeW ∉ evs)
  ∧ fs1 !! "README.md" = fs !! "README.md".
Proof.
  intros Hrun Hsent Hfailed. apply elem_of_requests in Hsent.
  rewrite main_steps in Hrun.
  destruct (backup_existing_readme_returns E fs)
    as (ok & fs0 & b & Hbackup & Hb & Hkeep).
  rewrite Hbackup in Hrun.
  pose proof (requests_none _ b backing_up_no_request Hb) as Hb_sent.
  destruct ok.
  2:{ injection Hrun as <- <- <-.
      rewrite requests_cons, requests_app, Hb_sent in Hsent.
      by apply elem_of_nil in Hsent. }
  destruct (get_codebase_summary_runs E sched fs0) as (rg & g & Hgather & Hg & _).
  rewrite Hgather in Hrun.
  pose proof (requests_none _ g gathering_no_request Hg) as Hg_sent.
  destruct rg as [codebase_context|e].
  2:{ injection Hrun as <- <- <-.
      rewrite requests_cons, requests_app, Hb_sent, Hg_sent in Hsent.
      by apply elem_of_nil in Hsent. }
  destruct (call_geminiai_runs E (full_prompt codebase_context) fs0)
    as (text & c & Hcall & Hc & Hrequest).
  rewrite Hcall in Hrun.
  destruct (truthy text) eqn:Htext.
  - exfalso.
    destruct (write_readme_runs E (default "" text) fs0) as (fs3 & w & Hwrite & Hw & _).
    rewrite Hwrite in Hrun. injection Hrun as <- <- <-.
    pose proof (requests_none _ w writing_no_request Hw) as Hw_sent.
    rewrite requests_cons, !requests_app, Hb_sent, Hg_sent, Hw_sent in Hsent.
    destruct Hrequest as [(_ & -> & _)|(key & _ & _ & Hc_sent & Hgen)]; [done|].
    rewrite Hc_sent in Hsent. simpl in Hsent.
    apply list_elem_of_singleton in Hsent as [= -> -> ->].
    rewrite (Hgen eq_refl) in Hfailed. simpl in Hfailed. congruence.
  - injection Hrun as <- <- <-. split; [done|]. split; [|split].
    + rewrite !app_assoc, app_comm_cons. apply last_snoc.
    + intros Hwrite.
      apply (proj1 (Forall_forall (λ ev, ev ≠ Open "README.md" ModeW) _)) in Hwrite;
        [done|].
      constructor; [done|]. rewrite !Forall_app. split_and!.
      * eapply Forall_impl; [exact Hb|apply backing_up_no_write].
      * eapply Forall_impl; [exact Hg|apply gathering_no_write].
      * eapply Forall_impl; [exact Hc|apply calling_no_write].
      * by repeat constructor.
    + by apply Hkeep.
Qed.

Lemma generation_failure_keeps_readme_witness :
  ∃ fs1 evs,
    main env_prompt_limit [] fs_sample = (Ret tt, fs1, evs)
    ∧ Generate "secret" AI_MODEL
        (full_prompt
           (foldl add_section "" [("a.txt", "hello"); ("b.bin", BINARY_PLACEHOLDER)]))
      ∈ evs
    ∧ generate_content env_prompt_limit "secret" AI_MODEL
        (full_prompt
           (foldl add_section "" [("a.txt", "hello"); ("b.bin", BINARY_PLACEHOLDER)]))
      = CallRaised (ClientError "400 INVALID_ARGUMENT")
    ∧ generate_content env_prompt_limit "secret" AI_MODEL "Say hello"
      = Response (Ret (Some "# Generated"))
    ∧ last evs = Some (Print "Error: Failed to generate updated README content")
    ∧ (Open "README.md" ModeW ∉ evs)
    ∧ fs1 !! "README.md" = fs_sample !! "README.md".
Proof.
  assert (∃ fs1 evs,
            main env_prompt_limit [] fs_sample = (Ret tt, fs1, evs)
            ∧ Generate "secret" AI_MODEL
                (full_prompt
                   (foldl add_section ""
                      [("a.txt", "hello"); ("b.bin", BINARY_PLACEHOLDER)])) ∈ evs)
    as (fs1 & evs & Hrun & Hsent).
  { eexists _, _. split; [vm_compute; reflexivity|].
    repeat first [apply list_elem_of_here | apply list_elem_of_further]. }
  exists fs1, evs. split; [exact Hrun|]. split; [exact Hsent|].
  split; [by vm_compute|]. split; [by vm_compute|].
  apply (generation_failure_keeps_readme env_prompt_limit [] fs_sample fs1 (Ret tt) evs
           "secret" AI_MODEL
           (full_prompt
              (foldl add_section "" [("a.txt", "hello"); ("b.bin", BINARY_PLACEHOLDER)]))
           Hrun Hsent).
  by vm_compute.
Defined.

(** C7. The claim fails on the code where it says that nothing is
    overwritten.  In a directory whose [README.md] is not valid UTF-8 and
    that holds an earlier backup, the copy opens [README.md.bak] for writing,
    which empties it, and then fails to read [README.md]: the backup step
    returns [False] and the run ends there, as the claim says, but the
    earlier backup is lost. *)
Theorem backup_failure_empties_backup :
  ∃ fs1 evs1 evs2 evs,
    backup_copy (posix git_sample None (Response (Ret None))) fs_binary_readme
    = (Raise UnicodeDecodeError, fs1, evs1)
    ∧ main (posix git_sample None (Response (Ret None))) [] fs_binary_readme
      = (Ret tt, fs1, evs)
    ∧ fs_binary_readme !! "README.md.bak" = Some (File "# Previous backup" true true)
    ∧ fs1 !! "README.md.bak" = Some (File "" true true)
    ∧ backup_existing_readme (posix git_sample None (Response (Ret None)))
        fs_binary_readme
      = (Ret false, fs1, evs2)
    ∧ evs1 = [Open "README.md" ModeR; Open "README.md.bak" ModeW]
    ∧ Forall backing_up evs
    ∧ fs1 !! "README.md" = fs_binary_readme !! "README.md".
Proof.
  exists (<["README.md.bak" := File "" true true]> fs_binary_readme).
  eexists _, _, _. split; [vm_compute; reflexivity|]. split; [vm_compute; reflexivity|].
  split; [done|]. split; [done|]. split; [vm_compute; reflexivity|]. split; [done|].
  split; [by repeat constructor|done].
Qed.

(** C8. The prompt built from a list of results is the instruction text, the
    separator, and for each result in turn the delimiter line with its path,
    its content and a blank line.  In particular, when the tracked files are
    [a.txt], which holds [hello], and [b.bin], which holds bytes that are not
    valid UTF-8, the prompt is the instruction text, the separator, the
    section of [a.txt] with [hello] and then the section of [b.bin] with the
    placeholder, in whatever order the files were listed and read. *)
Theorem prompt_layout :
  (∀ results,
     full_prompt (foldl add_section "" results)
     = SYSTEM_PROMPT +:+ (nl +:+ nl +:+ "Codebase files:" +:+ nl) +:+ sections results)
  ∧ (∀ E sched fs stdout data w1 w2,
       git_ls_files E = Exited 0 stdout →
       utf8_valid stdout = true →
       splitlines stdout ≡ₚ ["a.txt"; "b.bin"] →
       fs !! "a.txt" = Some (File "hello" true w1) →
       fs !! "b.bin" = Some (File data true w2) →
       utf8_valid data = false →
       assembled_prompt E sched fs
       = Ret (SYSTEM_PROMPT +:+ (nl +:+ nl +:+ "Codebase files:" +:+ nl)
              +:+ ("--- a.txt ---" +:+ nl +:+ "hello" +:+ nl +:+ nl)
              +:+ ("--- b.bin ---" +:+ nl +:+ "[Binary file]" +:+ nl +:+ nl))).
Proof.
  split.
  - intros results. rewrite foldl_add_section, append_nil_l. unfold full_prompt.
    by rewrite !append_assoc.
  - intros E sched fs stdout data w1 w2 Hgit Hvalid Hperm Ha Hb Hdata.
    rewrite (assembled_prompt_listed E sched fs stdout) by done.
    rewrite (sort_by_path_order_irrelevant _ (read_all E fs ["a.txt"; "b.bin"])).
    + unfold read_all. simpl.
      rewrite (content_of_text E fs "a.txt" "hello" w1) by done.
      rewrite (content_of_binary E fs "b.bin" data w2) by done.
      reflexivity.
    + by apply read_all_Permutation.
    + intros x y. apply read_all_functional.
Qed.

Lemma prompt_layout_witness :
  assembled_prompt (posix git_sample_reversed None (Response (Ret None))) [0; 1] fs_sample
  = Ret (SYSTEM_PROMPT +:+ (nl +:+ nl +:+ "Codebase files:" +:+ nl)
         +:+ ("--- a.txt ---" +:+ nl +:+ "hello" +:+ nl +:+ nl)
         +:+ ("--- b.bin ---" +:+ nl +:+ "[Binary file]" +:+ nl +:+ nl)).
Proof.
  apply (proj2 prompt_layout (posix git_sample_reversed None (Response (Ret None))) [0; 1]
           fs_sample ("b.bin" +:+ nl +:+ "a.txt" +:+ nl) xFF true true).
  - reflexivity.
  - reflexivity.
  - rewrite splitlines_sample_reversed. apply Permutation_swap.
  - reflexivity.
  - reflexivity.
  - reflexivity.
Defined.

(** C9. The Content Reader is total: for every path and every file system,
    [read_file_content] returns a pair and raises nothing, and the first
    component of the pair is the path it was given.  The content is the text
    of the file after a successful read, the placeholder after a decode
    failure, and a text that embeds the error after any other failure. *)
Theorem read_file_content_total (E : Env) (file_path : string) (fs : gmap string node) :
  ∃ content evs,
    read_file_content E file_path fs = (Ret (file_path, content), fs, evs)
    ∧ ((∃ data w,
          fs !! file_path = Some (File data true w)
          ∧ utf8_valid data = true ∧ content = universal_newlines data)
       ∨ (∃ data w,
            fs !! file_path = Some (File data true w)
            ∧ utf8_valid data = false ∧ content = BINARY_PLACEHOLDER)
       ∨ (∃ e, content = "[Error reading file: " +:+ str_exn E e +:+ "]")).
Proof.
  unfold read_file_content, open_r, f_read. unfold_M.
  destruct (fs !! file_path) as [[data [] w|]|] eqn:Hnode; simpl.
  - rewrite Hnode. destruct (utf8_valid data) eqn:Hvalid; simpl;
      eexists _, _; (split; [reflexivity|]).
    + left. by exists data, w.
    + right. left. by exists data, w.
  - eexists _, _. split; [reflexivity|]. right. right. by eexists.
  - eexists _, _. split; [reflexivity|]. right. right. by eexists.
  - eexists _, _. split; [reflexivity|]. right. right. by eexists.
Qed.

(** C10. When [README.md] does not exist, the backup step returns [True],
    performs no event and leaves the whole file system, a backup file of an
    earlier run included, exactly as it was. *)
Theorem backup_without_readme (E : Env) (fs : gmap string node) :
  fs !! "README.md" = None →
  backup_existing_readme E fs = (Ret true, fs, []).
Proof.
  intros Hnone. unfold backup_existing_readme, path_exists. unfold_M.
  rewrite Hnone. rewrite bool_decide_eq_false_2; [done|].
  by intros [? ?].
Qed.

Lemma backup_without_readme_witness :
  fs_only_backup !! "README.md" = None
  ∧ backup_existing_readme (posix (Exited 0 "") None (Response (Ret None))) fs_only_backup
    = (Ret true, fs_only_backup, []).
Proof.
  split; [reflexivity|].
  apply (backup_without_readme (posix (Exited 0 "") None (Response (Ret None))) fs_only_backup).
  reflexivity.
Defined.

(** * Further properties of the script *)

(** X1. The backup step never raises and touches no path but the backup: it
    returns a boolean, performs only prints and the opening of [README.md]
    to read and of [README.md.bak] to write, and leaves every other path as
    it was.  It returns [True] exactly when there is no [README.md], or when
    [README.md] is a readable file of valid UTF-8 and the backup path is free
    or a writable file. *)
Theorem backup_step_outcome (E : Env) (fs : gmap string node) :
  ∃ ok fs1 evs,
    backup_existing_readme E fs = (Ret ok, fs1, evs)
    ∧ Forall backing_up evs
    ∧ (∀ path, path ≠ "README.md.bak" → fs1 !! path = fs !! path)
    ∧ (ok = true ↔
       fs !! "README.md" = None
       ∨ ∃ data w,
           fs !! "README.md" = Some (File data true w)
           ∧ utf8_valid data = true
           ∧ (fs !! "README.md.bak" = None
              ∨ ∃ old r, fs !! "README.md.bak" = Some (File old r true))).
Proof.
  destruct (backup_existing_readme_returns E fs) as (ok & fs1 & evs & Hrun & Hevs & Hkeep).
  exists ok, fs1, evs. split; [done|]. split; [done|]. split; [done|].
  destruct (fs !! "README.md") as [n|] eqn:Hsrc.
  - destruct (backup_copy_raises E fs)
      as [(data & w & Hsrc' & Hvalid & Hdst)|(e & fs2 & evs2 & Hcopy)].
    + destruct (backup_copy_completes E fs data w Hsrc' Hvalid Hdst) as (r & Hrun' & _).
      rewrite Hrun' in Hrun. injection Hrun as <- _ _.
      split; [|done]. intros _. right. exists data, w. by rewrite <-Hsrc.
    + assert (ok = false) as ->.
      { revert Hrun. unfold backup_existing_readme, path_exists. unfold_M.
        rewrite Hsrc, bool_decide_eq_true_2 by done. simpl. rewrite Hcopy.
        by intros [= <- _ _]. }
      split; [done|]. intros [?|(data & w & Hsrc' & Hvalid & Hdst)]; [done|].
      destruct (backup_copy_completes E fs data w) as (r & Hrun' & _); [by rewrite Hsrc|done..|].
      revert Hrun'. unfold backup_existing_readme, path_exists. unfold_M.
      rewrite Hsrc, bool_decide_eq_true_2 by done. simpl. by rewrite Hcopy.
  - assert (ok = true) as ->.
    { revert Hrun. unfold backup_existing_readme, path_exists. unfold_M.
      rewrite Hsrc, bool_decide_eq_false_2 by (by intros [? ?]). by intros [= <- _ _]. }
    split; [by left|done].
Qed.

(** X2. The Generation Client never raises and leaves the file system as it
    was.  With a key it sends exactly one request, which carries that key,
    the fixed model and the prompt unchanged, and without one it sends none;
    a text it returns that is not empty is the text of the response. *)
Theorem call_geminiai_one_request (E : Env) (prompt : string) (fs : gmap string node) :
  ∃ text evs,
    call_geminiai E prompt fs = (Ret text, fs, evs)
    ∧ Forall calling evs
    ∧ requests evs
      = (if truthy (GEMINI_API_KEY E)
         then [(default "" (GEMINI_API_KEY E), AI_MODEL, prompt)]
         else [])
    ∧ (truthy text = true →
       generate_content E (default "" (GEMINI_API_KEY E)) AI_MODEL prompt
       = Response (Ret text)).
Proof.
  destruct (call_geminiai_runs E prompt fs)
    as (text & evs & Hrun & Hevs & [(Hkey & -> & Hreq)|(api_key & Hkey & Hne & Hreq & Htext)]).
  - exists None, evs. by rewrite Hkey.
  - exists text, evs. rewrite Hkey. simpl.
    by destruct api_key.
Qed.

(** X4. The File Enumerator and the reads change nothing: whatever git does
    and in whatever order the reads finish, [get_codebase_summary] leaves the
    file system as it was, opens files only to read, spawns only
    [git ls-files] and sends nothing to the endpoint.  An exception leaves it
    only when git cannot be started or when the output of git is not
    UTF-8. *)
Theorem get_codebase_summary_read_only (E : Env) (sched : list nat)
    (fs : gmap string node) :
  ∃ r evs,
    get_codebase_summary E sched fs = (r, fs, evs)
    ∧ Forall gathering evs
    ∧ requests evs = []
    ∧ ∀ e, r = Raise e →
        (git_ls_files E = NotStarted e ∧ ∀ returncode, e ≠ CalledProcessError returncode)
        ∨ (∃ stdout,
             git_ls_files E = Exited 0 stdout
             ∧ utf8_valid stdout = false ∧ e = UnicodeDecodeError).
Proof.
  destruct (get_codebase_summary_runs E sched fs) as (r & evs & Hrun & Hevs & Hraise).
  exists r, evs. split; [done|]. split; [done|]. split; [|done].
  by apply (requests_none gathering), Hevs; apply gathering_no_request.
Qed.

(** The four ways a run goes: the write step is reached, the client gives no
    text, the enumeration raises, or the backup fails. *)
Ltac run_main E sched fs :=
  rewrite (main_steps E sched fs);
  let ok := fresh "ok" in
  let rs := fresh "rs" in
  destruct (backup_existing_readme_returns E fs)
    as (ok & ?fs0 & ?b & ?Hbackup & ?Hb & ?Hkeep0);
  rewrite Hbackup;
  destruct ok;
  [ destruct (get_codebase_summary_runs E sched fs0)
      as (rs & ?g & ?Hsummary & ?Hg & ?Hraise);
    rewrite Hsummary;
    destruct rs as [?codebase_context|?e];
    [ destruct (call_geminiai_runs E (full_prompt codebase_context) fs0)
        as (?updated_readme & ?c & ?Hcall & ?Hc & ?Hreq);
      rewrite Hcall;
      destruct (truthy updated_readme) eqn:?Htext;
      [ destruct (write_readme_runs E (default "" updated_readme) fs0)
          as (?fs1 & ?w & ?Hwrite & ?Hw & ?Hkeep1 & ?Hreadme);
        rewrite Hwrite
      | ]
    | ]
  | ].

(** X9. A run goes through its steps in order: after the first line the
    events are those of the backup step, then those of the enumeration and
    the reads, then those of the Generation Client, then those of the write
    step.  So [README.md] is opened for writing only after the backup, the
    reads and the request, at most one request is sent, and no path other
    than [README.md] and [README.md.bak] is changed. *)
Theorem run_phases (E : Env) (sched : list nat) (fs : gmap string node) :
  ∃ r fs1 b g c w,
    main E sched fs
    = (r, fs1, Print "Starting README generation process" :: b ++ g ++ c ++ w)
    ∧ Forall backing_up b
    ∧ Forall gathering g
    ∧ Forall calling c
    ∧ Forall writing w
    ∧ length (requests (b ++ g ++ c ++ w)) ≤ 1
    ∧ ∀ path, path ≠ "README.md" → path ≠ "README.md.bak" →
        fs1 !! path = fs !! path.
Proof.
  assert (∀ b g c w,
            Forall backing_up b → Forall gathering g → Forall writing w →
            length (requests c) ≤ 1 →
            length (requests (b ++ g ++ c ++ w)) ≤ 1) as Hcount.
  { intros b g c w Hb Hg Hw Hc. rewrite !requests_app.
    rewrite (requests_none backing_up b), (requests_none gathering g),
      (requests_none writing w);
      auto using backing_up_no_request, gathering_no_request, writing_no_request.
    by rewrite app_nil_r. }
  run_main E sched fs.
  - exists (Ret tt), fs1, b, g, c, w.
    split; [done|]. do 4 (split; [done|]). split.
    + apply Hcount; [done..|].
      destruct Hreq as [(_ & _ & ->)|(api_key & _ & _ & -> & _)]; simpl; lia.
    + intros path H1 H2. by rewrite Hkeep1, Hkeep0.
  - exists (Ret tt), fs0, b, g, c,
      [Print "Error: Failed to generate updated README content"].
    split; [done|]. do 3 (split; [done|]). split; [by repeat constructor|]. split.
    + apply Hcount; [done| done | by repeat constructor |].
      destruct Hreq as [(_ & _ & ->)|(api_key & _ & _ & -> & _)]; simpl; lia.
    + intros path H1 H2. by rewrite Hkeep0.
  - exists (Raise e), fs0, b, g, [], [].
    split; [by rewrite !app_nil_r|]. do 4 (split; [done|]). split.
    + apply Hcount; [done..|simpl; lia].
    + intros path H1 H2. by rewrite Hkeep0.
  - exists (Ret tt), fs0, b, [], [], [Print "Error: Aborting due to backup failure"].
    split; [done|]. do 3 (split; [done|]). split; [by repeat constructor|]. split.
    + apply Hcount; [done| done | by repeat constructor | simpl; lia].
    + intros path H1 H2. by rewrite Hkeep0.
Qed.

(** X5. An exception leaves [main] only from the enumeration: git could not
    be started, or its output is not UTF-8.  In that case the backup step had
    succeeded, nothing was sent to the endpoint and [README.md] is as it
    was. *)
Theorem main_raises_only_from_git (E : Env) (sched : list nat)
    (fs fs1 : gmap string node) (e : exn) (evs : list event) :
  main E sched fs = (Raise e, fs1, evs) →
  ((git_ls_files E = NotStarted e ∧ ∀ returncode, e ≠ CalledProcessError returncode)
   ∨ (∃ stdout,
        git_ls_files E = Exited 0 stdout
        ∧ utf8_valid stdout = false ∧ e = UnicodeDecodeError))
  ∧ (∃ b, backup_existing_readme E fs = (Ret true, fs1, b))
  ∧ requests evs = []
  ∧ fs1 !! "README.md" = fs !! "README.md".
Proof.
  run_main E sched fs; intros [= <- <- <-]; try done.
  split; [by apply Hraise|]. split; [by exists b|]. split.
  - rewrite requests_cons, requests_app.
    by rewrite (requests_none backing_up b), (requests_none gathering g)
      by auto using backing_up_no_request, gathering_no_request.
  - by apply Hkeep0.
Qed.

Lemma main_raises_only_from_git_witness :
  ∃ fs1 evs,
    main env_no_git [] fs_sample = (Raise (FileNotFoundError "git"), fs1, evs)
    ∧ git_ls_files env_no_git = NotStarted (FileNotFoundError "git")
    ∧ requests evs = []
    ∧ fs1 !! "README.md" = fs_sample !! "README.md".
Proof.
  assert (∃ fs1 evs,
            main env_no_git [] fs_sample = (Raise (FileNotFoundError "git"), fs1, evs))
    as (fs1 & evs & Hrun).
  { eexists _, _. vm_compute. reflexivity. }
  exists fs1, evs. split; [exact Hrun|]. split; [reflexivity|].
  apply (main_raises_only_from_git env_no_git [] fs_sample fs1 _ evs Hrun).
Defined.

(** X3. A credential variable that is set to the empty string counts as
    missing: the Generation Client returns [None] without a request, and a
    whole run sends nothing and leaves [README.md] as it was. *)
Theorem empty_credential_is_missing (E : Env) (sched : list nat) (fs : gmap string node) :
  GEMINI_API_KEY E = Some "" →
  (∀ prompt fs0,
     call_geminiai E prompt fs0
     = (Ret None, fs0,
        [Print ("Calling Gemini AI (" +:+ AI_MODEL +:+ ") to generate README...");
         Print "Error: GEMINI_API_KEY environment variable not set"]))
  ∧ ∃ r fs1 evs,
      main E sched fs = (r, fs1, evs)
      ∧ requests evs = []
      ∧ fs1 !! "README.md" = fs !! "README.md".
Proof.
  intros Hkey.
  split. { intros prompt fs0. apply call_geminiai_no_key. by rewrite Hkey. }
  assert (∀ b g c w,
            Forall backing_up b → Forall gathering g → requests c = [] →
            Forall writing w →
            requests (Print "Starting README generation process" :: b ++ g ++ c ++ w)
            = []) as Hnone.
  { intros b g c w Hb Hg Hc Hw. rewrite requests_cons, !requests_app, Hc.
    by rewrite (requests_none backing_up b), (requests_none gathering g),
      (requests_none writing w)
      by auto using backing_up_no_request, gathering_no_request, writing_no_request. }
  run_main E sched fs.
  - destruct Hreq as [(_ & -> & _)|(api_key & Hkey' & Hne & _)]; [done|].
    rewrite Hkey in Hkey'. by injection Hkey' as <-.
  - eexists _, _, _. split; [reflexivity|]. split; [|by apply Hkeep0].
    apply Hnone; [done..| |by repeat constructor].
    destruct Hreq as [(_ & _ & ->)|(api_key & Hkey' & Hne & _)]; [done|].
    rewrite Hkey in Hkey'. by injection Hkey' as <-.
  - eexists _, _, _. split; [reflexivity|]. split; [|by apply Hkeep0].
    rewrite <-(app_nil_r g). rewrite <-(app_nil_r (g ++ [])) at 1.
    rewrite <-!app_assoc. by apply Hnone.
  - eexists _, _, _. split; [reflexivity|]. split; [|by apply Hkeep0].
    apply (Hnone b [] [] [_]); [done..|by repeat constructor].
Qed.

Lemma empty_credential_is_missing_witness :
  GEMINI_API_KEY (posix git_sample (Some "") (Response (Ret (Some "# New")))) = Some ""
  ∧ ∃ r fs1 evs,
      main (posix git_sample (Some "") (Response (Ret (Some "# New")))) [] fs_sample
      = (r, fs1, evs)
      ∧ requests evs = []
      ∧ fs1 !! "README.md" = fs_sample !! "README.md".
Proof.
  split; [reflexivity|].
  apply (empty_credential_is_missing
           (posix git_sample (Some "") (Response (Ret (Some "# New")))) [] fs_sample).
  reflexivity.
Defined.

(** X8. A run changes [README.md] only into the text of the endpoint: if
    [README.md] is not the same after a run, then the backup step had
    succeeded, the enumeration had returned, there was a key, the endpoint
    answered the prompt with a text that is not empty, and [README.md] holds
    that text as text mode writes it. *)
Theorem readme_changes_only_to_generated_text (E : Env) (sched : list nat)
    (fs fs1 : gmap string node) (r : outcome unit) (evs : list event) :
  main E sched fs = (r, fs1, evs) →
  fs1 !! "README.md" ≠ fs !! "README.md" →
  ∃ fs0 b codebase_context g api_key text readable,
    backup_existing_readme E fs = (Ret true, fs0, b)
    ∧ get_codebase_summary E sched fs0 = (Ret codebase_context, fs0, g)
    ∧ GEMINI_API_KEY E = Some api_key
    ∧ generate_content E api_key AI_MODEL (full_prompt codebase_context)
      = Response (Ret (Some text))
    ∧ text ≠ ""
    ∧ fs1 !! "README.md"
      = Some (File (translate_newlines (linesep E) text) readable true).
Proof.
  run_main E sched fs; intros [= <- <- <-] Hchanged;
    try (by destruct Hchanged; apply Hkeep0).
  destruct Hreq as [(_ & -> & _)|(api_key & Hkey & Hne & _ & Hgen)]; [done|].
  specialize (Hgen eq_refl).
  destruct updated_readme as [[|a text]|]; try done. simpl in *.
  assert (fs0 !! "README.md" = fs !! "README.md") as Hsame by (by apply Hkeep0).
  destruct (fs0 !! "README.md") as [[data readable []|]|] eqn:Hnode.
  - destruct Hreadme as [Hreadme _].
    by exists fs0, b, codebase_context, g, api_key, (String a text), readable.
  - destruct Hreadme as [-> _]. by rewrite Hnode in Hchanged.
  - destruct Hreadme as [-> _]. by rewrite Hnode in Hchanged.
  - destruct Hreadme as [Hreadme _].
    by exists fs0, b, codebase_context, g, api_key, (String a text), true.
Qed.

Lemma readme_changes_only_to_generated_text_witness :
  ∃ fs1 evs,
    main env_answering [1; 0] fs_sample = (Ret tt, fs1, evs)
    ∧ fs1 !! "README.md" ≠ fs_sample !! "README.md"
    ∧ ∃ fs0 b codebase_context g api_key text readable,
        backup_existing_readme env_answering fs_sample = (Ret true, fs0, b)
        ∧ get_codebase_summary env_answering [1; 0] fs0 = (Ret codebase_context, fs0, g)
        ∧ GEMINI_API_KEY env_answering = Some api_key
        ∧ generate_content env_answering api_key AI_MODEL (full_prompt codebase_context)
          = Response (Ret (Some text))
        ∧ text ≠ ""
        ∧ fs1 !! "README.md"
          = Some (File (translate_newlines (linesep env_answering) text) readable true).
Proof.
  assert (∃ fs1 evs,
            main env_answering [1; 0] fs_sample = (Ret tt, fs1, evs)
            ∧ fs1 !! "README.md" = Some (File "# New" true true))
    as (fs1 & evs & Hrun & Hreadme).
  { eexists _, _. split; vm_compute; reflexivity. }
  assert (fs1 !! "README.md" ≠ fs_sample !! "README.md") as Hchanged.
  { rewrite Hreadme. vm_compute. discriminate. }
  exists fs1, evs. split; [exact Hrun|]. split; [exact Hchanged|].
  exact (readme_changes_only_to_generated_text env_answering [1; 0] fs_sample fs1
           (Ret tt) evs Hrun Hchanged).
Defined.

(** X6. A run in which every step succeeds writes the text of the endpoint
    to [README.md]: when the backup step returns [True], the enumeration
    returns, there is a key, the endpoint answers the prompt with a text that
    is not empty, and [README.md] is absent or writable, the run sends that
    one request, ends without an exception with the line of success, and
    [README.md] holds the text as text mode writes it. *)
Theorem successful_run_writes_readme (E : Env) (sched : list nat)
    (fs fs0 fs0' : gmap string node) (b g : list event)
    (codebase_context api_key text : string) :
  (fs !! "README.md" = None ∨ ∃ data r, fs !! "README.md" = Some (File data r true)) →
  backup_existing_readme E fs = (Ret true, fs0, b) →
  get_codebase_summary E sched fs0 = (Ret codebase_context, fs0', g) →
  GEMINI_API_KEY E = Some api_key →
  api_key ≠ "" →
  generate_content E api_key AI_MODEL (full_prompt codebase_context)
  = Response (Ret (Some text)) →
  text ≠ "" →
  ∃ fs1 evs readable,
    main E sched fs
    = (Ret tt, fs1,
       evs ++ [Open "README.md" ModeW; Print "README.md has been successfully updated"])
    ∧ requests evs = [(api_key, AI_MODEL, full_prompt codebase_context)]
    ∧ fs1 !! "README.md"
      = Some (File (translate_newlines (linesep E) text) readable true).
Proof.
  intros Hnode Hbackup Hsummary Hkey Hne Hgen Htext.
  destruct (backup_existing_readme_returns E fs) as (ok & fs2 & b2 & Hb2 & Hb & Hkeep0).
  rewrite Hbackup in Hb2. injection Hb2 as <- <- <-.
  destruct (get_codebase_summary_runs E sched fs0) as (rs & g2 & Hg2 & Hg & _).
  rewrite Hsummary in Hg2. injection Hg2 as <- -> <-.
  rewrite (main_steps E sched fs), Hbackup, Hsummary.
  rewrite (call_geminiai_with_key E _ fs0 api_key Hkey Hne), Hgen.
  assert (truthy (Some text) = true) as -> by (by destruct text).
  destruct (write_readme_runs E text fs0) as (fs1 & w & Hwrite & _ & _ & Hreadme).
  simpl. rewrite Hwrite.
  assert (∃ readable,
            fs1 !! "README.md"
            = Some (File (translate_newlines (linesep E) text) readable true)
            ∧ w = [Open "README.md" ModeW;
                   Print "README.md has been successfully updated"])
    as (readable & Hfile & ->).
  { rewrite (Hkeep0 "README.md") in Hreadme by done.
    destruct Hnode as [Hnode|(data & r & Hnode)]; rewrite Hnode in Hreadme;
      destruct Hreadme; by eexists. }
  exists fs1,
    (Print "Starting README generation process"
       :: b ++ g
       ++ [Print ("Calling Gemini AI (" +:+ AI_MODEL +:+ ") to generate README...");
           Generate api_key AI_MODEL (full_prompt codebase_context);
           Print "Successfully generated README content"]),
    readable.
  split; [|split; [|done]].
  - rewrite <-!app_comm_cons, <-!app_assoc. reflexivity.
  - rewrite requests_cons, !requests_app.
    by rewrite (requests_none backing_up b), (requests_none gathering g)
      by auto using backing_up_no_request, gathering_no_request.
Qed.

Lemma successful_run_writes_readme_witness :
  ∃ fs1 evs readable codebase_context,
    main env_answering [1; 0] fs_sample
    = (Ret tt, fs1,
       evs ++ [Open "README.md" ModeW; Print "README.md has been successfully updated"])
    ∧ requests evs = [("secret", AI_MODEL, full_prompt codebase_context)]
    ∧ fs1 !! "README.md"
      = Some (File (translate_newlines (linesep env_answering) "# New") readable true).
Proof.
  assert (∃ fs0 b, backup_existing_readme env_answering fs_sample = (Ret true, fs0, b))
    as (fs0 & b & Hbackup).
  { eexists _, _. vm_compute. reflexivity. }
  destruct (get_codebase_summary_listed env_answering [1; 0] fs0
              ("a.txt" +:+ nl +:+ "b.bin" +:+ nl) eq_refl eq_refl)
    as (g & Hsummary & _).
  destruct (successful_run_writes_readme env_answering [1; 0] fs_sample fs0 fs0 b g
              (sections (sort_by_path (read_all env_answering fs0
                 (splitlines ("a.txt" +:+ nl +:+ "b.bin" +:+ nl)))))
              "secret" "# New")
    as (fs1 & evs & readable & Hrun & Hreq & Hreadme);
    [right; by eexists _, _|exact Hbackup|exact Hsummary|reflexivity|done
    |reflexivity|done|].
  by eexists fs1, evs, readable, _.
Defined.

(** X7. A failure of the write step is reported and not raised: when the
    backup step returns [True], the enumeration returns, the endpoint answers
    with a text that is not empty, and [README.md] is a file that may not be
    written, the run ends without an exception, its last line tells the
    error, and the file system is the one the backup step left, with
    [README.md] as it was. *)
Theorem write_failure_is_reported (E : Env) (sched : list nat)
    (fs fs0 fs0' : gmap string node) (b g : list event)
    (codebase_context api_key text data : string) (r : bool) :
  fs !! "README.md" = Some (File data r false) →
  backup_existing_readme E fs = (Ret true, fs0, b) →
  get_codebase_summary E sched fs0 = (Ret codebase_context, fs0', g) →
  GEMINI_API_KEY E = Some api_key →
  api_key ≠ "" →
  generate_content E api_key AI_MODEL (full_prompt codebase_context)
  = Response (Ret (Some text)) →
  text ≠ "" →
  ∃ evs,
    main E sched fs
    = (Ret tt, fs0,
       evs ++ [Open "README.md" ModeW;
               Print ("Error: Failed to write README.md: "
                      +:+ str_exn E (PermissionError "README.md"))])
    ∧ fs0 !! "README.md" = fs !! "README.md".
Proof.
  intros Hnode Hbackup Hsummary Hkey Hne Hgen Htext.
  destruct (backup_existing_readme_returns E fs) as (ok & fs2 & b2 & Hb2 & Hb & Hkeep0).
  rewrite Hbackup in Hb2. injection Hb2 as <- <- <-.
  destruct (get_codebase_summary_runs E sched fs0) as (rs & g2 & Hg2 & Hg & _).
  rewrite Hsummary in Hg2. injection Hg2 as <- -> <-.
  rewrite (main_steps E sched fs), Hbackup, Hsummary.
  rewrite (call_geminiai_with_key E _ fs0 api_key Hkey Hne), Hgen.
  assert (truthy (Some text) = true) as -> by (by destruct text).
  destruct (write_readme_runs E text fs0) as (fs1 & w & Hwrite & _ & _ & Hreadme).
  simpl. rewrite Hwrite.
  rewrite (Hkeep0 "README.md"), Hnode in Hreadme by done.
  destruct Hreadme as [-> ->].
  exists (Print "Starting README generation process"
            :: b ++ g
            ++ [Print ("Calling Gemini AI (" +:+ AI_MODEL +:+ ") to generate README...");
                Generate api_key AI_MODEL (full_prompt codebase_context);
                Print "Successfully generated README content"]).
  split; [|by apply Hkeep0].
  rewrite <-!app_comm_cons, <-!app_assoc. reflexivity.
Qed.

Lemma write_failure_is_reported_witness :
  fs_read_only_readme !! "README.md" = Some (File "# Old" true false)
  ∧ ∃ fs0 evs,
      main env_answering [] fs_read_only_readme
      = (Ret tt, fs0,
         evs ++ [Open "README.md" ModeW;
                 Print ("Error: Failed to write README.md: "
                        +:+ str_exn env_answering (PermissionError "README.md"))])
      ∧ fs0 !! "README.md" = fs_read_only_readme !! "README.md".
Proof.
  split; [reflexivity|].
  assert (∃ fs0 b,
            backup_existing_readme env_answering fs_read_only_readme = (Ret true, fs0, b))
    as (fs0 & b & Hbackup).
  { eexists _, _. vm_compute. reflexivity. }
  destruct (get_codebase_summary_listed env_answering [] fs0
              ("a.txt" +:+ nl +:+ "b.bin" +:+ nl) eq_refl eq_refl)
    as (g & Hsummary & _).
  destruct (write_failure_is_reported env_answering [] fs_read_only_readme fs0 fs0 b g
              (sections (sort_by_path (read_all env_answering fs0
                 (splitlines ("a.txt" +:+ nl +:+ "b.bin" +:+ nl)))))
              "secret" "# New" "# Old" true)
    as (evs & Hrun & Hreadme);
    [reflexivity|exact Hbackup|exact Hsummary|reflexivity|done|reflexivity|done|].
  by exists fs0, evs.
Defined.




(** X11. A listed file that is readable and valid UTF-8 appears in the prompt
    with its text as text mode reads it: the bytes of the file in which each
    CR LF and each lone CR has become one LF. *)
Theorem text_file_section (E : Env) (sched : list nat) (fs : gmap string node)
    (stdout file_path data : string) (w : bool) :
  git_ls_files E = Exited 0 stdout →
  utf8_valid stdout = true →
  file_path ∈ splitlines stdout →
  fs !! file_path = Some (File data true w) →
  utf8_valid data = true →
  read_file_content E file_path fs
  = (Ret (file_path, universal_newlines data), fs, [Open file_path ModeR])
  ∧ ∃ before after,
      assembled_prompt E sched fs
      = Ret (before
             +:+ ("--- " +:+ file_path +:+ " ---" +:+ nl
                  +:+ universal_newlines data +:+ nl +:+ nl)
             +:+ after).
Proof.
  intros Hgit Hvalid Hin Hnode Hdata. split.
  - unfold read_file_content, open_r, f_read. unfold_M.
    rewrite Hnode. simpl. by rewrite Hnode, Hdata.
  - destruct (assembled_prompt_section E sched fs stdout file_path Hgit Hvalid Hin)
      as (before & after & Hprompt).
    exists before, after.
    by rewrite Hprompt, (content_of_text E fs file_path data w).
Qed.

Lemma text_file_section_witness :
  read_file_content (posix git_sample None (Response (Ret None))) "a.txt" fs_crlf_text
  = (Ret ("a.txt", "one" +:+ nl +:+ "two" +:+ nl), fs_crlf_text, [Open "a.txt" ModeR])
  ∧ ∃ before after,
      assembled_prompt (posix git_sample None (Response (Ret None))) [1] fs_crlf_text
      = Ret (before
             +:+ ("--- " +:+ "a.txt" +:+ " ---" +:+ nl
                  +:+ ("one" +:+ nl +:+ "two" +:+ nl) +:+ nl +:+ nl)
             +:+ after).
Proof.
  apply (text_file_section (posix git_sample None (Response (Ret None))) [1]
           fs_crlf_text ("a.txt" +:+ nl +:+ "b.bin" +:+ nl) "a.txt"
           ("one" +:+ String CR nl +:+ "two" +:+ String CR nl) true).
  - reflexivity.
  - reflexivity.
  - rewrite splitlines_sample. apply elem_of_cons. by left.
  - reflexivity.
  - reflexivity.
Defined.

(** A pool without calls does nothing. *)
Lemma executor_map_nil {A B} (sched : list nat) (fn : A → M B) (fs : gmap string node) :
  executor_map sched fn [] fs = (Ret [], fs, []).
Proof.
  unfold executor_map. simpl. rewrite app_nil_r.
  assert (foldl (complete fn []) ([], fs, []) sched = ([], fs, [])) as ->; [|done].
  induction sched as [|i sched IH]; [done|]. simpl. exact IH.
Qed.

(** X12. With no tracked file, that is when git succeeds and prints nothing,
    the summary is empty: no file is opened, the count printed is 0, and the
    prompt is the instruction text followed by the separator alone. *)
Theorem empty_listing (E : Env) (sched : list nat) (fs : gmap string node) :
  git_ls_files E = Exited 0 "" →
  get_codebase_summary E sched fs
  = (Ret "", fs,
     [Print "Gathering codebase information...";
      Spawn ["git"; "ls-files"];
      Print "Processed 0 files from the codebase"])
  ∧ assembled_prompt E sched fs
    = Ret (SYSTEM_PROMPT +:+ nl +:+ nl +:+ "Codebase files:" +:+ nl).
Proof.
  intros Hgit.
  assert (get_codebase_summary E sched fs
          = (Ret "", fs,
             [Print "Gathering codebase information...";
              Spawn ["git"; "ls-files"];
              Print "Processed 0 files from the codebase"])) as Hrun.
  { unfold get_codebase_summary, check_output_git_ls_files, decode_utf8. unfold_M.
    rewrite Hgit. simpl.
    change (splitlines "") with (@nil string).
    by rewrite executor_map_nil. }
  split; [exact Hrun|].
  unfold assembled_prompt. rewrite Hrun. unfold full_prompt.
  by rewrite append_nil_r.
Qed.

Lemma empty_listing_witness :
  get_codebase_summary (posix (Exited 0 "") None (Response (Ret None))) [3; 0] fs_sample
  = (Ret "", fs_sample,
     [Print "Gathering codebase information...";
      Spawn ["git"; "ls-files"];
      Print "Processed 0 files from the codebase"])
  ∧ assembled_prompt (posix (Exited 0 "") None (Response (Ret None))) [3; 0] fs_sample
    = Ret (SYSTEM_PROMPT +:+ nl +:+ nl +:+ "Codebase files:" +:+ nl).
Proof.
  apply (empty_listing (posix (Exited 0 "") None (Response (Ret None))) [3; 0] fs_sample).
  reflexivity.
Defined.

(** A line feed that follows a string starts no boundary earlier than
    itself. *)
Lemma line_boundary_before_lf (a : ascii) (s out : string) :
  line_boundary (String a s) = 0 →
  line_boundary (String a (s +:+ String LF out)) = 0.
Proof.
  unfold line_boundary.
  destruct (N_of_ascii a =? 13)%N.
  { destruct s as [|a1 s]; [done|]. by destruct (decide (a1 = LF)). }
  destruct ((N_of_ascii a =? 10) || (N_of_ascii a =? 11) || (N_of_ascii a =? 12)
            || (N_of_ascii a =? 28) || (N_of_ascii a =? 29) || (N_of_ascii a =? 30))%N;
    [done|].
  destruct (N_of_ascii a =? 194)%N.
  { destruct s as [|a1 s]; [done|]. done. }
  destruct (N_of_ascii a =? 226)%N; [|done].
  destruct s as [|a1 [|a2 s]]; [by destruct out| |done].
  intros _. rewrite !append_cons, append_nil_l.
  change (N_of_ascii LF) with 10%N. simpl. by rewrite andb_false_r.
Qed.

Lemma splitlines_from_line (line cur out : string) :
  no_boundary line = true →
  splitlines_from 0 cur (line +:+ nl +:+ out)
  = (cur +:+ line) :: splitlines_from 0 "" out.
Proof.
  revert cur. induction line as [|a line IH]; intros cur Hline.
  - by rewrite append_nil_l, append_nil_r.
  - change (no_boundary (String a line))
      with (match line_boundary (String a line) with
            | O => no_boundary line
            | S _ => false
            end) in Hline.
    destruct (line_boundary (String a line)) eqn:Hhere; [|done].
    rewrite append_cons.
    change (splitlines_from 0 cur (String a (line +:+ nl +:+ out)))
      with (match line_boundary (String a (line +:+ nl +:+ out)) with
            | O => splitlines_from 0 (cur +:+ String a "") (line +:+ nl +:+ out)
            | S k => cur :: splitlines_from k "" (line +:+ nl +:+ out)
            end).
    unfold nl at 1. rewrite append_cons, append_nil_l.
    rewrite (line_boundary_before_lf a line out Hhere).
    change (String LF out) with (nl +:+ out).
    rewrite IH by done. by rewrite append_assoc.
Qed.

(** X13. Splitting the output of git into lines recovers the listing: when
    git prints each path followed by a line feed, and no path holds a line
    boundary of [splitlines] (LF, CR, VT, FF, FS, GS, RS, U+0085, U+2028,
    U+2029), the list of files is the list of those paths, in the same order
    and with the same repetitions. *)
Theorem splitlines_unlines (lines : list string) :
  Forall (λ line, no_boundary line = true) lines →
  splitlines (unlines lines) = lines.
Proof.
  unfold splitlines.
  induction 1 as [|line lines Hline _ IH]; [done|].
  simpl. rewrite (splitlines_from_line line "" (unlines lines) Hline).
  by rewrite append_nil_l, IH.
Qed.

Lemma splitlines_unlines_witness :
  Forall (λ line, no_boundary line = true) ["src/a b.py"; ""; "README.md"]
  ∧ splitlines (unlines ["src/a b.py"; ""; "README.md"])
    = ["src/a b.py"; ""; "README.md"].
Proof.
  split.
  - repeat constructor.
  - apply (splitlines_unlines ["src/a b.py"; ""; "README.md"]). repeat constructor.
Defined.

(** X14. What a successful backup holds: when [README.md] exists and the
    backup step returns [True], [README.md] was a readable file and the
    backup holds its bytes as text mode reads and writes them, every CR LF
    and lone CR read as LF and every LF written as the line separator,
    whatever the backup held before.  Where the line separator is LF and
    [README.md] holds no carriage return, the backup holds the same bytes as
    [README.md]. *)
Theorem backup_holds_text_of_readme (E : Env) (fs fs1 : gmap string node)
    (evs : list event) :
  is_Some (fs !! "README.md") →
  backup_existing_readme E fs = (Ret true, fs1, evs) →
  ∃ data w r,
    fs !! "README.md" = Some (File data true w)
    ∧ fs1 !! "README.md.bak"
      = Some (File (translate_newlines (linesep E) (universal_newlines data)) r true)
    ∧ (linesep E = nl → no_cr data = true →
       fs1 !! "README.md.bak" = Some (File data r true)).
Proof.
  intros Hthere Hrun.
  destruct (backup_success_content E fs fs1 evs Hthere Hrun) as (data & w & r & Hsrc & Hdst).
  exists data, w, r. split; [done|]. split; [done|].
  intros Hsep Hcr. by rewrite Hdst, lf_text_through_text_mode.
Qed.

Lemma backup_holds_text_of_readme_witness :
  is_Some (fs_sample !! "README.md")
  ∧ ∃ (fs1 : gmap string node) data w r,
      fs_sample !! "README.md" = Some (File data true w)
      ∧ fs1 !! "README.md.bak"
        = Some (File (translate_newlines nl (universal_newlines data)) r true)
      ∧ (nl = nl → no_cr data = true →
         fs1 !! "README.md.bak" = Some (File data r true)).
Proof.
  split; [by eexists|].
  assert (∃ fs1 evs,
            backup_existing_readme (posix git_sample None (Response (Ret None))) fs_sample
            = (Ret true, fs1, evs)) as (fs1 & evs & Hrun).
  { eexists _, _. vm_compute. reflexivity. }
  exists fs1.
  exact (backup_holds_text_of_readme (posix git_sample None (Response (Ret None)))
           fs_sample fs1 evs (ex_intro _ _ eq_refl) Hrun).
Defined.

(** X15. The backup step can be repeated: right after a backup step that
    returned [True], a second one returns [True] again and leaves the file
    system, the backup included, as the first one left it. *)
Theorem backup_twice (E : Env) (fs fs1 : gmap string node) (evs : list event) :
  backup_existing_readme E fs = (Ret true, fs1, evs) →
  ∃ evs', backup_existing_readme E fs1 = (Ret true, fs1, evs').
Proof.
  intros Hrun.
  destruct (fs !! "README.md") as [n|] eqn:Hsrc.
  - destruct (backup_copy_raises E fs)
      as [(data & w & Hsrc' & Hvalid & Hdst)|(e & fs2 & evs2 & Hcopy)].
    + destruct (backup_copy_completes E fs data w Hsrc' Hvalid Hdst) as (r & Hrun' & _).
      rewrite Hrun' in Hrun. injection Hrun as <- _.
      destruct (backup_copy_completes E
                  (<["README.md.bak" := File (through_text_mode E data) r true]> fs)
                  data w) as (r' & Hrun2 & Hr').
      * by rewrite lookup_insert_ne.
      * done.
      * right. exists (through_text_mode E data), r. by rewrite lookup_insert_eq.
      * rewrite lookup_insert_eq in Hr'. subst r'.
        rewrite insert_insert_eq in Hrun2. by eexists.
    + exfalso. revert Hrun. unfold backup_existing_readme, path_exists. unfold_M.
      rewrite Hsrc, bool_decide_eq_true_2 by done. simpl. by rewrite Hcopy.
  - assert (fs1 = fs) as ->.
    { revert Hrun. unfold backup_existing_readme, path_exists. unfold_M.
      rewrite Hsrc, bool_decide_eq_false_2 by (by intros [? ?]). by intros [= <- _]. }
    by exists evs.
Qed.

Lemma backup_twice_witness :
  ∃ fs1 evs evs',
    backup_existing_readme (posix git_sample None (Response (Ret None))) fs_crlf
    = (Ret true, fs1, evs)
    ∧ backup_existing_readme (posix git_sample None (Response (Ret None))) fs1
      = (Ret true, fs1, evs').
Proof.
  assert (∃ fs1 evs,
            backup_existing_readme (posix git_sample None (Response (Ret None))) fs_crlf
            = (Ret true, fs1, evs)) as (fs1 & evs & Hrun).
  { eexists _, _. vm_compute. reflexivity. }
  destruct (backup_twice (posix git_sample None (Response (Ret None))) fs_crlf fs1 evs Hrun)
    as (evs' & Hrun').
  by exists fs1, evs, evs'.
Defined.

(** ** The events of the pool *)

Section PoolEvents.

Context {A B : Type} (fn : A → M B) (args : list A) (fs : gmap string node).

Hypothesis fn_reads : ∀ x, ∃ b evs, fn x fs = (Ret b, fs, evs).

Lemma done_events_replicate (xs : list A) (n : nat) :
  done_events fn fs xs (replicate n (None : option (outcome B))) = [].
Proof.
  unfold done_events. revert n.
  induction xs as [|x xs IH]; intros [|n]; simpl; [done..|]. apply IH.
Qed.

Lemma done_events_insert (xs : list A) (futs : list (option (outcome B)))
    (i : nat) (x : A) (r : outcome B) :
  futs !! i = Some None → xs !! i = Some x →
  done_events fn fs xs (<[i := Some r]> futs)
  ≡ₚ done_events fn fs xs futs ++ (fn x fs).2.
Proof.
  unfold done_events. revert futs i.
  induction xs as [|y xs IH]; intros [|fut futs] [|i] Hfut Hx; simplify_eq/=.
  - apply Permutation_app_comm.
  - rewrite IH by done. by rewrite app_assoc.
Qed.

Lemma done_events_all (xs : list A) (futs : list (option (outcome B))) :
  length futs = length xs →
  (∀ i, i < length xs → ∃ r, futs !! i = Some (Some r)) →
  done_events fn fs xs futs = concat ((λ x, (fn x fs).2) <$> xs).
Proof.
  unfold done_events. revert futs.
  induction xs as [|x xs IH]; intros [|fut futs] Hlen Hdone; simplify_eq/=; [done|].
  destruct (Hdone 0) as [r Hr]; [lia|]. simpl in Hr. injection Hr as ->.
  f_equal. apply IH; [done|]. intros i Hi. apply (Hdone (S i)). lia.
Qed.

Lemma complete_events (st : pool B) (i : nat) :
  st.1.2 = fs → st.2 ≡ₚ done_events fn fs args st.1.1 →
  (complete fn args st i).1.2 = fs
  ∧ (complete fn args st i).2 ≡ₚ done_events fn fs args (complete fn args st i).1.1.
Proof.
  destruct st as [[futs fs1] evs]. simpl. intros -> Hevs.
  unfold complete.
  destruct (futs !! i) as [[r|]|] eqn:Hfut; [done| |done].
  destruct (args !! i) as [x|] eqn:Hx; [|done].
  destruct (fn_reads x) as (b & evs1 & Hfn). rewrite Hfn. simpl.
  split; [done|].
  rewrite (done_events_insert args futs i x (Ret b) Hfut Hx), Hfn. simpl.
  by rewrite Hevs.
Qed.

Lemma foldl_complete_events (l : list nat) (st : pool B) :
  st.1.2 = fs → st.2 ≡ₚ done_events fn fs args st.1.1 →
  (foldl (complete fn args) st l).1.2 = fs
  ∧ (foldl (complete fn args) st l).2
    ≡ₚ done_events fn fs args (foldl (complete fn args) st l).1.1.
Proof.
  revert st. induction l as [|i l IH]; intros st Hfs Hevs; [done|].
  simpl. destruct (complete_events st i Hfs Hevs). by apply IH.
Qed.

Lemma foldl_complete_length (l : list nat) (st : pool B) :
  length (foldl (complete fn args) st l).1.1 = length st.1.1.
Proof.
  revert st. induction l as [|i l IH]; intros st; [done|].
  simpl. by rewrite IH, complete_length.
Qed.

(** The events of the pool are those of its calls, each call counted once,
    in the order in which the calls finished. *)
Lemma executor_map_events (sched : list nat) :
  (executor_map sched fn args fs).2 ≡ₚ concat ((λ x, (fn x fs).2) <$> args).
Proof.
  unfold executor_map.
  set (st0 := (replicate (length args) None, fs, []) : pool B).
  destruct (foldl_complete_events (sched ++ seq 0 (length args)) st0) as [_ Hevs].
  { done. }
  { simpl. by rewrite done_events_replicate. }
  pose proof (executor_waits fn args sched fs) as Hdone. fold st0 in Hdone.
  assert (length (foldl (complete fn args) st0 (sched ++ seq 0 (length args))).1.1
          = length args) as Hlen.
  { rewrite foldl_complete_length. simpl. by rewrite length_replicate. }
  destruct (foldl (complete fn args) st0 (sched ++ seq 0 (length args)))
    as [[futs fs1] evs].
  simpl in *. rewrite Hevs. by rewrite (done_events_all args futs Hlen Hdone).
Qed.

End PoolEvents.

(** A read opens its file once and no other file. *)
Lemma read_file_content_opened (E : Env) (file_path : string) (fs : gmap string node) :
  opened (read_file_content E file_path fs).2 = [file_path].
Proof.
  unfold read_file_content, open_r, f_read. unfold_M.
  destruct (fs !! file_path) as [[data [] w|]|] eqn:Hnode; simpl; [|done..].
  rewrite Hnode. by destruct (utf8_valid data).
Qed.

Lemma opened_app (evs1 evs2 : list event) :
  opened (evs1 ++ evs2) = opened evs1 ++ opened evs2.
Proof. unfold opened. apply omap_app. Qed.

Lemma opened_reads (E : Env) (fs : gmap string node) (files : list string) :
  opened (concat ((λ file_path, (read_file_content E file_path fs).2) <$> files))
  = files.
Proof.
  induction files as [|file_path files IH]; [done|].
  rewrite fmap_cons, concat_cons, opened_app, IH.
  by rewrite read_file_content_opened.
Qed.

(** X16. The parallel reads do not depend on the schedule: in whatever order
    the reads finish, the pool returns the result of every listed file in the
    order of the listing and leaves the file system as it was; every listed
    file is opened exactly once, as often as it is listed; and the events of
    two schedules, the warnings among them, are the same up to their
    order. *)
Theorem reads_independent_of_schedule (E : Env) (sched : list nat)
    (files : list string) (fs : gmap string node) :
  ∃ evs,
    executor_map sched (read_file_content E) files fs = (Ret (read_all E fs files), fs, evs)
    ∧ opened evs ≡ₚ files
    ∧ ∀ sched', (executor_map sched' (read_file_content E) files fs).2 ≡ₚ evs.
Proof.
  assert (∀ x, ∃ b evs, read_file_content E x fs = (Ret b, fs, evs)) as Hreads.
  { intros x. destruct (read_file_content_returns E x fs) as (c & evs & Hr & _).
    by exists (x, c), evs. }
  destruct (executor_map_returned reads_only (read_file_content E) files fs)
    with (sched := sched) as (results & evs & Hmap & _ & Hres).
  { intros x. destruct (read_file_content_returns E x fs) as (c & evs & ? & ?).
    by exists (x, c), evs. }
  apply returned_read_all in Hres as ->.
  pose proof (executor_map_events (read_file_content E) files fs Hreads sched) as Hevs.
  rewrite Hmap in Hevs. simpl in Hevs.
  exists evs. split; [done|]. split.
  - unfold opened. rewrite Hevs. fold (opened
      (concat ((λ file_path, (read_file_content E file_path fs).2) <$> files))).
    by rewrite opened_reads.
  - intros sched'. rewrite Hevs.
    apply (executor_map_events (read_file_content E) files fs Hreads sched').
Qed.

(** Text without a carriage return that was written in text mode is read
    back as it was, where the line separator is LF or CR LF. *)
Lemma written_text_read_back (linesep text : string) :
  linesep = nl ∨ linesep = String CR nl →
  no_cr text = true →
  universal_newlines (translate_newlines linesep text) = text.
Proof.
  intros Hsep. unfold universal_newlines.
  induction text as [|a text IH]; [done|].
  intros Htext.
  change (no_cr (String a text))
    with (if decide (a = CR) then false else no_cr text) in Htext.
  change (translate_newlines linesep (String a text))
    with (if decide (a = LF) then linesep +:+ translate_newlines linesep text
          else String a (translate_newlines linesep text)).
  destruct (decide (a = CR)) as [|Hcr]; [done|].
  specialize (IH Htext).
  destruct (decide (a = LF)) as [->|Hlf].
  - destruct Hsep as [->| ->].
    + change (nl +:+ translate_newlines nl text)
        with (String LF (translate_newlines nl text)).
      change (universal_newlines_from false (String LF (translate_newlines nl text)))
        with (String LF (universal_newlines_from false (translate_newlines nl text))).
      by rewrite IH.
    + change (String CR nl +:+ translate_newlines (String CR nl) text)
        with (String CR (String LF (translate_newlines (String CR nl) text))).
      change (universal_newlines_from false
                (String CR (String LF (translate_newlines (String CR nl) text))))
        with (String LF (universal_newlines_from false
                           (translate_newlines (String CR nl) text))).
      by rewrite IH.
  - change (universal_newlines_from false (String a (translate_newlines linesep text)))
      with (if decide (a = CR) then String LF (universal_newlines_from true (translate_newlines linesep text))
            else if decide (a = LF) then String LF (universal_newlines_from false (translate_newlines linesep text))
            else String a (universal_newlines_from false (translate_newlines linesep text))).
    destruct (decide (a = CR)); [done|]. destruct (decide (a = LF)); [done|].
    by rewrite IH.
Qed.

(** X17. What a run writes is what the next run finds: when the write step
    writes a text without carriage return to a [README.md] that is absent or
    readable and writable, on a platform whose line separator is LF or CR LF,
    then the Content Reader returns exactly that text for [README.md], and a
    backup step that follows returns [True] with a backup that holds the
    same bytes as [README.md]. *)
Theorem written_readme_round_trip (E : Env) (fs : gmap string node) (text : string) :
  linesep E = nl ∨ linesep E = String CR nl →
  no_cr text = true →
  utf8_valid (translate_newlines (linesep E) text) = true →
  (fs !! "README.md" = None ∨ ∃ data, fs !! "README.md" = Some (File data true true)) →
  (fs !! "README.md.bak" = None
   ∨ ∃ old r, fs !! "README.md.bak" = Some (File old r true)) →
  ∃ fs1 evs1 fs2 evs2 r,
    write_readme E text fs = (Ret tt, fs1, evs1)
    ∧ fs1 !! "README.md" = Some (File (translate_newlines (linesep E) text) true true)
    ∧ read_file_content E "README.md" fs1
      = (Ret ("README.md", text), fs1, [Open "README.md" ModeR])
    ∧ backup_existing_readme E fs1 = (Ret true, fs2, evs2)
    ∧ fs2 !! "README.md.bak" = Some (File (translate_newlines (linesep E) text) r true).
Proof.
  intros Hsep Hcr Hvalid Hsrc Hdst.
  destruct (write_readme_runs E text fs) as (fs1 & evs1 & Hwrite & _ & Hkeep & Hreadme).
  assert (fs1 !! "README.md"
          = Some (File (translate_newlines (linesep E) text) true true)) as Hfile.
  { destruct Hsrc as [Hsrc|(data & Hsrc)]; rewrite Hsrc in Hreadme; by destruct Hreadme. }
  assert (fs1 !! "README.md.bak" = None
          ∨ ∃ old r, fs1 !! "README.md.bak" = Some (File old r true)) as Hdst1.
  { by rewrite Hkeep. }
  destruct (backup_copy_completes E fs1 _ true Hfile Hvalid Hdst1) as (r & Hbackup & _).
  eexists fs1, evs1, _, _, r. split; [exact Hwrite|]. split; [exact Hfile|].
  split; [|split; [exact Hbackup|]].
  - unfold read_file_content, open_r, f_read. unfold_M.
    rewrite Hfile. simpl. rewrite Hfile, Hvalid.
    by rewrite written_text_read_back.
  - rewrite lookup_insert_eq. unfold through_text_mode.
    by rewrite written_text_read_back.
Qed.

Lemma written_readme_round_trip_witness :
  ∃ fs1 evs1 fs2 evs2 r,
    write_readme env_answering ("# New" +:+ nl +:+ "text" +:+ nl) fs_sample
    = (Ret tt, fs1, evs1)
    ∧ fs1 !! "README.md"
      = Some (File (translate_newlines (linesep env_answering)
                      ("# New" +:+ nl +:+ "text" +:+ nl)) true true)
    ∧ read_file_content env_answering "README.md" fs1
      = (Ret ("README.md", "# New" +:+ nl +:+ "text" +:+ nl), fs1,
         [Open "README.md" ModeR])
    ∧ backup_existing_readme env_answering fs1 = (Ret true, fs2, evs2)
    ∧ fs2 !! "README.md.bak"
      = Some (File (translate_newlines (linesep env_answering)
                      ("# New" +:+ nl +:+ "text" +:+ nl)) r true).
Proof.
  apply (written_readme_round_trip env_answering fs_sample
           ("# New" +:+ nl +:+ "text" +:+ nl)).
  - by left.
  - reflexivity.
  - reflexivity.
  - right. by eexists.
  - by left.
Defined.
